(** * Ukulele reviews scraper: extraction heuristics, diffing and persistence

    A shallow embedding of the scraper class [UkuleleReviewsScraper]
    (field normalisation, price attribution by DOM position, metadata
    validation, diff report, the [scrape] driver) and of the change
    detector (its diff report and its cache of seen URLs), followed by
    the properties of the specification that concern them and by further
    properties read off the code.

    Conventions of the embedding.

    - A JavaScript string is a [string]: one [ascii] per UTF-16 code
      unit, for the code units below 256 (ASCII and Latin-1, which is
      where the pound sign of the price headings lives, code unit 163).
      [String.length] is then JavaScript's [.length].
    - [null] / [undefined] results are [None].
    - A thrown [Error] is the [Throw] outcome of the [io] monad; the
      file system it threads keeps whatever was written before the throw.
    - A rating, a number that is only stored and compared, is held as
      the text that [JSON.stringify] writes for it; [parseFloat], which
      makes the number from the captured text, is a function of the
      platform and a parameter of the code that calls it. *)

From Stdlib Require Import String Ascii List Bool Arith ZArith Lia.
From Stdlib Require Import Sorting.Sorted Sorting.Permutation.
Import ListNotations.
Local Open Scope list_scope.
Local Open Scope string_scope.

(** ** JavaScript string primitives *)

Module Js.

Definition code (c : ascii) : nat := nat_of_ascii c.

Definition between (lo hi n : nat) : bool := ((lo <=? n) && (n <=? hi))%nat.

(** [\s] of a regular expression and the characters removed by [trim]:
    TAB, LF, VT, FF, CR, space and the no-break space. *)
Definition isWhiteSpace (c : ascii) : bool :=
  let n := code c in between 9 13 n || (n =? 32)%nat || (n =? 160)%nat.

(** [\d] *)
Definition isDigit (c : ascii) : bool := between 48 57 (code c).

(** [[a-z]] under the [i] flag: exactly the ASCII letters. *)
Definition isLetter (c : ascii) : bool :=
  let n := code c in between 65 90 n || between 97 122 n.

(** [String.prototype.toLowerCase], one code unit at a time: A-Z and the
    Latin-1 capitals (192..222 except the multiplication sign 215) move
    up by 32. *)
Definition lowerChar (c : ascii) : ascii :=
  let n := code c in
  if between 65 90 n || (between 192 222 n && negb (n =? 215)%nat)
  then ascii_of_nat (n + 32) else c.

Fixpoint toLowerCase (s : string) : string :=
  match s with
  | EmptyString => EmptyString
  | String c s' => String (lowerChar c) (toLowerCase s')
  end.

(** [String.prototype.toUpperCase]: a-z and the Latin-1 small letters
    (224..254 except the division sign 247) move down by 32; the sharp s
    (223) becomes "SS".  The micro sign (181) and y-diaeresis (255) have
    capitals outside the modelled range and are left as they are. *)
Definition upperChar (c : ascii) : string :=
  let n := code c in
  if between 97 122 n || (between 224 254 n && negb (n =? 247)%nat)
  then String (ascii_of_nat (n - 32)) EmptyString
  else if (n =? 223)%nat then "SS"
  else String c EmptyString.

Fixpoint toUpperCase (s : string) : string :=
  match s with
  | EmptyString => EmptyString
  | String c s' => upperChar c ++ toUpperCase s'
  end.

Fixpoint trimStart (s : string) : string :=
  match s with
  | EmptyString => EmptyString
  | String c s' => if isWhiteSpace c then trimStart s' else s
  end.

Fixpoint trimEnd (s : string) : string :=
  match s with
  | EmptyString => EmptyString
  | String c s' =>
      match trimEnd s' with
      | EmptyString => if isWhiteSpace c then EmptyString else String c EmptyString
      | t => String c t
      end
  end.

Definition trim (s : string) : string := trimEnd (trimStart s).

(** [s.startsWith(p)] *)
Definition startsWith (s p : string) : bool := String.prefix p s.

(** [s.includes(sub)] *)
Fixpoint includes (s sub : string) : bool :=
  startsWith s sub ||
  match s with
  | EmptyString => false
  | String _ s' => includes s' sub
  end.

(** [s.replace(/c/g, '')] for a set of single characters [drop]. *)
Fixpoint removeChars (drop : ascii -> bool) (s : string) : string :=
  match s with
  | EmptyString => EmptyString
  | String c s' =>
      if drop c then removeChars drop s' else String c (removeChars drop s')
  end.

(** [s.split(/\s+/)[0]]: the characters before the first white space
    (the empty string when [s] is empty or starts with white space). *)
Fixpoint splitWsHead (s : string) : string :=
  match s with
  | EmptyString => EmptyString
  | String c s' => if isWhiteSpace c then EmptyString else String c (splitWsHead s')
  end.

(** The first [n] characters, when there are that many, and the rest. *)
Fixpoint takeN (n : nat) (s : string) : option (string * string) :=
  match n with
  | O => Some (EmptyString, s)
  | S n' =>
      match s with
      | EmptyString => None
      | String c s' =>
          match takeN n' s' with
          | Some (t, r) => Some (String c t, r)
          | None => None
          end
      end
  end.

Fixpoint allChars (p : ascii -> bool) (s : string) : bool :=
  match s with
  | EmptyString => true
  | String c s' => p c && allChars p s'
  end.

(** The pound sign, code unit 163. *)
Definition pound : string := String (ascii_of_nat 163) EmptyString.

End Js.

(** ** Outcomes of code that may throw *)

Inductive outcome (A : Type) : Type :=
| Return (a : A)
| Throw (message : string).
Arguments Return {A} a.
Arguments Throw {A} message.

(** ** The scraper: field normalisation *)

Module Scraper.
Import Js.

(** [this.priceRanges]: heading text to category, in the order the object
    literal lists its keys (which is the order of [Object.keys]). *)
Definition priceRanges : list (string * string) :=
  [ ("Ukuleles " ++ pound ++ "0 - " ++ pound ++ "50", "<50");
    ("Ukuleles " ++ pound ++ "50- " ++ pound ++ "100", "50-100");
    ("Ukuleles " ++ pound ++ "100 - " ++ pound ++ "200", "100-200");
    ("Ukuleles " ++ pound ++ "200 - " ++ pound ++ "500", "200-500");
    ("Ukuleles " ++ pound ++ "500 plus", "500+") ].

(** [[...brandList].sort((a, b) => b.length - a.length)]: longest first,
    brands of equal length keep their catalog order (the sort is stable). *)
Fixpoint insertByLength (b : string) (sorted : list string) : list string :=
  match sorted with
  | [] => [b]
  | c :: rest =>
      if (String.length c <=? String.length b)%nat
      then b :: c :: rest
      else c :: insertByLength b rest
  end.

Fixpoint sortByLengthDesc (brandList : list string) : list string :=
  match brandList with
  | [] => []
  | b :: rest => insertByLength b (sortByLengthDesc rest)
  end.

(** The [for (const brand of sortedBrands)] loop. *)
Fixpoint firstIncluded (titleUpper : string) (sortedBrands : list string)
  : option string :=
  match sortedBrands with
  | [] => None
  | brand :: rest =>
      if includes titleUpper brand then Some brand
      else firstIncluded titleUpper rest
  end.

Definition findBestMatchingBrand (title : string) (brandList : list string)
  : string :=
  let titleUpper := toUpperCase title in
  let sortedBrands := sortByLengthDesc brandList in
  match firstIncluded titleUpper sortedBrands with
  | Some brand => brand
  | None =>
      let firstWord := splitWsHead title in
      if String.eqb firstWord "" then "UNKNOWN" else toUpperCase firstWord
  end.

Definition getEdgeCaseSize (title : string) : option string :=
  let lowerTitle := trim (toLowerCase title) in
  if String.eqb lowerTitle "enya euc-ms" then Some "concert" else None.

Definition extractSize (title : string) : string :=
  let lowerTitle := toLowerCase title in
  match getEdgeCaseSize title with
  | Some size => size
  | None =>
      if includes lowerTitle "soprano" then "soprano"
      else if includes lowerTitle "sopranino" then "sopranino"
      else if includes lowerTitle "concert" then "concert"
      else if includes lowerTitle "tenor" then "tenor"
      else if includes lowerTitle "baritone" || includes lowerTitle "bari "
           then "baritone"
      else "other"
  end.

(** The [months] table of [parseReviewDate]. *)
Definition months : list (string * string) :=
  [ ("jan", "01"); ("feb", "02"); ("mar", "03"); ("apr", "04");
    ("may", "05"); ("jun", "06"); ("jul", "07"); ("aug", "08");
    ("sep", "09"); ("oct", "10"); ("nov", "11"); ("dec", "12") ].

Fixpoint lookup (key : string) (table : list (string * string))
  : option string :=
  match table with
  | [] => None
  | (k, v) :: rest => if String.eqb k key then Some v else lookup key rest
  end.

(** [/([a-z]{3})\s+(\d{4})/i] tried at the very start of [s]: three
    letters, a non-empty run of white space (the run is taken whole: a
    digit is no white space, so no shorter run can be followed by the
    digits), four digits.  Returns the two groups. *)
Definition monthYearAt (s : string) : option (string * string) :=
  match takeN 3 s with
  | Some (letters, afterLetters) =>
      if allChars isLetter letters then
        match afterLetters with
        | String c _ =>
            if isWhiteSpace c then
              match takeN 4 (trimStart afterLetters) with
              | Some (digits, _) =>
                  if allChars isDigit digits then Some (letters, digits)
                  else None
              | None => None
              end
            else None
        | EmptyString => None
        end
      else None
  | None => None
  end.

(** [/(\d{4})/] tried at the very start of [s]. *)
Definition yearAt (s : string) : option string :=
  match takeN 4 s with
  | Some (digits, _) => if allChars isDigit digits then Some digits else None
  | None => None
  end.

(** [String.prototype.match] without the [g] flag: the match at the
    leftmost position where the pattern matches. *)
Fixpoint firstMatch {A : Type} (pattern : string -> option A) (s : string)
  : option A :=
  match pattern s with
  | Some m => Some m
  | None =>
      match s with
      | EmptyString => None
      | String _ s' => firstMatch pattern s'
      end
  end.

Definition isParen (c : ascii) : bool :=
  Ascii.eqb c "("%char || Ascii.eqb c ")"%char.

(** The [cleanDate] of [parseReviewDate]. *)
Definition cleanDateText (dateStr : string) : string :=
  trim (removeChars isParen dateStr).

(** [dateStr] is [None] for [null] / [undefined]. *)
Definition parseReviewDate (dateStr : option string) : option string :=
  match dateStr with
  | None => None
  | Some EmptyString => None
  | Some dateStr =>
      let cleanDate := cleanDateText dateStr in
      let yearOnly :=
        match firstMatch yearAt cleanDate with
        | Some year => Some (year ++ "-01-01")
        | None => None
        end in
      match firstMatch monthYearAt cleanDate with
      | Some (letters, year) =>
          match lookup (toLowerCase letters) months with
          | Some month => Some (year ++ "-" ++ month ++ "-01")
          | None => yearOnly
          end
      | None => yearOnly
      end
  end.

Definition isPound (c : ascii) : bool := (code c =? 163)%nat.

(** The [cleanText] of [mapPriceRange]. *)
Definition cleanPriceText (priceRangeText : string) : string :=
  trim (toLowerCase (removeChars isPound priceRangeText)).

Definition mapPriceRange (priceRangeText : string) : string :=
  let cleanText := cleanPriceText priceRangeText in
  if includes cleanText "500" &&
     (includes cleanText "plus" || includes cleanText "+") then "500+"
  else if includes cleanText "200 -" || includes cleanText "200-" then "200-500"
  else if includes cleanText "100 -" || includes cleanText "100-" then "100-200"
  else if includes cleanText "50-" || includes cleanText "50 -" then "50-100"
  else if includes cleanText "0 -" || startsWith cleanText "0-" then "<50"
  else "unknown".

(** ** The scraper: the parsed page *)

(** A DOM node as the extraction code looks at it: its [type] ('text' or
    'tag'), its [startIndex], and the [data] of a text node or the [name]
    of an element. *)
Inductive node : Type :=
| Text (startIndex : Z) (data : string)
| Tag (startIndex : Z) (name : string).

Definition startIndex (n : node) : Z :=
  match n with
  | Text i _ => i
  | Tag i _ => i
  end.

(** [n.data]; [undefined] for an element. *)
Definition data (n : node) : option string :=
  match n with
  | Text _ d => Some d
  | Tag _ _ => None
  end.

Definition isHigherInDom (node1 node2 : node) : bool :=
  (startIndex node1 <? startIndex node2)%Z.

(** [priceNodeFor] is the [priceNode] variable once the [forEach] is
    done.  [priceTitles[0]] is [undefined] for an empty list, and reading
    [.data] of it throws; an element in place of the text node has no
    [data], and [mapPriceRange(undefined)] throws. *)
Definition priceNodeFor (n : node) (priceTitles : list node) : option node :=
  fold_left
    (fun priceNode priceTitleNode =>
       if negb (isHigherInDom n priceTitleNode) then Some priceTitleNode
       else priceNode)
    priceTitles (hd_error priceTitles).

Definition extractReviewPrice (n : node) (priceTitles : list node)
  : outcome string :=
  match priceNodeFor n priceTitles with
  | None => Throw "TypeError: Cannot read properties of undefined"
  | Some priceNode =>
      match data priceNode with
      | Some text => Return (mapPriceRange text)
      | None => Throw "TypeError: Cannot read properties of undefined"
      end
  end.

(** A [b > span] element of the main content: its [text()] and its first
    child.  The page lists them in document order. *)
Record span : Type := {
  spanText : string;
  firstChild : node
}.

(** The [priceTitleNodes] loop of [extractAllReviews]: for each key of
    [priceRanges] in turn, every span whose trimmed text starts with it. *)
Definition collectPriceTitleNodes (spans : list span) : list node :=
  flat_map
    (fun entry =>
       map firstChild
         (filter (fun element => startsWith (trim (spanText element)) (fst entry))
            spans))
    priceRanges.

(** A link of the main content with what the loop body reads from it:
    the element itself, [attr('href')], [text()], the chain of [next]
    siblings, the [name] of its parent element and the chain of [next]
    siblings of that parent.  [parentName] is [None] for a link that has
    no parent element (a link at the top of the main content): then
    [$link.parent()] is an empty selection and its [[0]] is
    [undefined]. *)
Record anchor : Type := {
  link : node;
  href : option string;
  text : string;
  next : list node;
  parentName : option string;
  parentNext : list node
}.

(** [!href || href.includes('/p/') || linkText.length < 5] skips the link. *)
Definition isReviewLink (a : anchor) : bool :=
  match href a with
  | None => false
  | Some h =>
      negb (String.eqb h "" || includes h "/p/"
            || (String.length (trim (text a)) <? 5)%nat)
  end.

(** The first [while] loop over the siblings of the link. *)
Fixpoint scanSiblings (nextNode : list node) (followingText : string)
  : string :=
  match nextNode with
  | [] => followingText
  | n :: rest =>
      if (String.length followingText <? 100)%nat then
        match n with
        | Text _ d =>
            if includes d "out" then scanSiblings rest (followingText ++ d)
            else scanSiblings rest followingText
        | Tag _ name =>
            if String.eqb name "br" && String.eqb name "div" then followingText
            else scanSiblings rest followingText
        end
      else followingText
  end.

(** The second [while] loop, over the siblings of the enclosing [b]. *)
Fixpoint scanBoldSiblings (bSibling : list node) (followingText : string)
  : string :=
  match bSibling with
  | [] => followingText
  | n :: rest =>
      if (String.length followingText <? 100)%nat then
        match n with
        | Text _ d => followingText ++ d
        | Tag _ name =>
            if String.eqb name "br" && String.eqb name "div" then followingText
            else scanBoldSiblings rest followingText
        end
      else followingText
  end.

(** The text after the link, once both loops are done.  The parent is
    only looked at when the first loop has collected nothing, and reading
    the [name] of a parent that is not there throws. *)
Definition followingTextOf (a : anchor) : outcome string :=
  let followingText := scanSiblings (next a) "" in
  if String.eqb followingText "" then
    match parentName a with
    | None => Throw "TypeError: Cannot read properties of undefined"
    | Some name =>
        if String.eqb name "b"
        then Return (scanBoldSiblings (parentNext a) followingText)
        else Return followingText
    end
  else Return followingText.

(** An entry of [allReviewData]; [rdRating] is the number that
    [parseFloat] made. *)
Record ReviewData : Type := {
  rdTitle : string;
  rdUrl : string;
  rdRating : string;
  rdPriceRange : string;
  rdReviewDate : option string;
  rdSize : string;
  rdIndex : nat
}.

Section WithParseFloat.

(** [parseFloat], from the captured text to the number. *)
Variable parseFloat : string -> string.

(** The body of [if (match)]: [ratingText] and [dateText] are the two
    groups of the rating pattern, [h] the link's [href]. *)
Definition reviewDataOf (a : anchor) (h : string) (i : nat)
    (priceTitleNodes : list node) (ratingText dateText : string)
  : outcome ReviewData :=
  let rating := parseFloat ratingText in
  let linkText := trim (text a) in
  let dateStr := trim dateText in
  let reviewDate := parseReviewDate (Some dateStr) in
  let size := extractSize linkText in
  match extractReviewPrice (link a) priceTitleNodes with
  | Throw e => Throw e
  | Return priceRange =>
      Return {| rdTitle := linkText;
                rdUrl := if startsWith h "http" then h
                         else "https://www.gotaukulele.com" ++ h;
                rdRating := rating;
                rdPriceRange := priceRange;
                rdReviewDate := reviewDate;
                rdSize := size;
                rdIndex := i |}
  end.

End WithParseFloat.

(** ** The scraper: review records, diff report and persistence *)

Record Review : Type := {
  size : string;
  brand : string;
  model : string;
  priceRange : string;
  url : string;
  rating : string;
  reviewDate : option string
}.

(** The callback of [allReviewData.map], with the result of
    [extractBrandAndModel] passed in. *)
Definition toReview (brandModel : string * string) (reviewData : ReviewData)
  : Review :=
  {| size := rdSize reviewData;
     brand := fst brandModel;
     model := snd brandModel;
     priceRange := rdPriceRange reviewData;
     url := rdUrl reviewData;
     rating := rdRating reviewData;
     reviewDate := rdReviewDate reviewData |}.

(** A [Set] of strings in insertion order. *)
Definition has (set : list string) (x : string) : bool :=
  existsb (String.eqb x) set.

Definition add (set : list string) (x : string) : list string :=
  if has set x then set else set ++ [x]%list.

Definition newSet (xs : list string) : list string := fold_left add xs [].

Record DiffReport : Type := {
  timestamp : string;
  changesNew : list Review;
  changesUpdated : list Review;
  changesRemoved : list string;
  totalPrevious : nat;
  totalCurrent : nat;
  netChange : Z
}.

(** [previousData] is [None] for [null]. *)
Definition generateDiffReport (now : string)
    (previousData : option (list Review)) (currentData : list Review)
  : DiffReport :=
  let prevUrls :=
    newSet (map url (match previousData with Some l => l | None => [] end)) in
  let currUrls := newSet (map url currentData) in
  let newReviews := filter (fun item => negb (has prevUrls (url item))) currentData in
  let removedUrls := filter (fun u => negb (has currUrls u)) prevUrls in
  let previousLength :=
    match previousData with Some l => List.length l | None => 0%nat end in
  {| timestamp := now;
     changesNew := newReviews;
     changesUpdated := [];
     changesRemoved := removedUrls;
     totalPrevious := previousLength;
     totalCurrent := List.length currentData;
     netChange := (Z.of_nat (List.length currentData) - Z.of_nat previousLength)%Z |}.

(** [Array.prototype.sort()] with the default comparison: by code units. *)
Fixpoint insertSorted (x : string) (sorted : list string) : list string :=
  match sorted with
  | [] => [x]
  | y :: rest =>
      if String.leb x y then x :: y :: rest else y :: insertSorted x rest
  end.

Definition sort (xs : list string) : list string :=
  fold_right insertSorted [] xs.

(** The contents of [other-data.json]. *)
Record Metadata : Type := {
  mdLastUpdated : string;
  mdBrands : list string;
  mdSizes : list string;
  mdPriceRanges : list string
}.

(** The contents of [ukulele-reviews.json]. *)
Record Output : Type := {
  outData : list Review;
  outSourceUrl : string;
  outScrapedAt : string;
  outTotal : nat;
  outDiffReport : DiffReport
}.

(** The output directory: the two files, when present, as the values
    that [JSON.stringify] was given, and the names of the files written
    so far, oldest first. *)
Record FileSystem : Type := {
  otherData : option Metadata;
  ukuleleReviews : option Output;
  written : list string
}.

(** Code that reads and writes the output directory and may throw. *)
Definition io (A : Type) : Type := FileSystem -> outcome A * FileSystem.

Definition ret {A : Type} (a : A) : io A := fun fs => (Return a, fs).

Definition throw {A : Type} (message : string) : io A :=
  fun fs => (Throw message, fs).

Definition bind {A B : Type} (c : io A) (k : A -> io B) : io B :=
  fun fs =>
    match c fs with
    | (Return a, fs') => k a fs'
    | (Throw e, fs') => (Throw e, fs')
    end.

Notation "x <- c ;; k" := (bind c (fun x => k))
  (at level 61, c at next level, right associativity).

Definition writeOtherData (metadata : Metadata) : io unit :=
  fun fs =>
    (Return tt,
     {| otherData := Some metadata;
        ukuleleReviews := ukuleleReviews fs;
        written := (written fs ++ ["other-data.json"])%list |}).

Definition writeUkuleleReviews (output : Output) : io unit :=
  fun fs =>
    (Return tt,
     {| otherData := otherData fs;
        ukuleleReviews := Some output;
        written := (written fs ++ ["ukulele-reviews.json"])%list |}).

Definition readOtherData : io (option Metadata) :=
  fun fs => (Return (otherData fs), fs).

Definition readUkuleleReviews : io (option Output) :=
  fun fs => (Return (ukuleleReviews fs), fs).

Definition saveBrandMetadata (now : string) (reviews : list Review)
  : io Metadata :=
  let brandSet := newSet (map brand reviews) in
  let sizeSet := newSet (map size reviews) in
  let priceRangeSet := newSet (map priceRange reviews) in
  let metadata :=
    {| mdLastUpdated := now;
       mdBrands := sort brandSet;
       mdSizes := ["Soprano"; "Concert"; "Tenor"; "Baritone"; "Sopranino"; "Other"];
       mdPriceRanges := ["<50"; "50-100"; "100-200"; "200-500"; "500+"] |} in
  if negb (forallb (fun pr => has (mdPriceRanges metadata) pr) priceRangeSet)
  then throw "Unexpected price ranges found in reviews"
  else if negb (forallb
                  (fun sz => has (map toLowerCase (mdSizes metadata)) sz)
                  sizeSet)
  then throw "Unexpected sizes found in reviews"
  else
    _ <- writeOtherData metadata ;;
    ret metadata.

(** A missing file makes [readFile] throw, which the [catch] turns into
    "all brands are new". *)
Definition checkForNewBrands (currentBrands : list string)
  : io (list string) :=
  existing <- readOtherData ;;
  match existing with
  | Some existingMetadata =>
      ret (filter (fun b => negb (has (mdBrands existingMetadata) b))
             currentBrands)
  | None => ret currentBrands
  end.

(** [extractAllReviews] from the point where the [reviews] array has been
    built: [extracted] is that array, or the error thrown on the way to
    it (a failed request, a throw in the link loop). *)
Definition extractAllReviews (now : string)
    (extracted : outcome (list Review)) : io (list Review) :=
  match extracted with
  | Throw e => throw e
  | Return reviews =>
      let uniqueBrands := sort (newSet (map brand reviews)) in
      _ <- checkForNewBrands uniqueBrands ;;
      _ <- saveBrandMetadata now reviews ;;
      ret reviews
  end.

Definition sourceUrl : string :=
  "https://www.gotaukulele.com/p/ukulele-reviews.html".

(** [scrape]; its [catch] logs and rethrows, which leaves the outcome as
    it is. *)
Definition scrape (now : string) (extracted : outcome (list Review))
  : io Output :=
  reviews <- extractAllReviews now extracted ;;
  if (List.length reviews =? 0)%nat then throw "No reviews found"
  else
    previous <- readUkuleleReviews ;;
    let previousData :=
      match previous with
      | Some parsed => Some (outData parsed)
      | None => None
      end in
    let diffReport := generateDiffReport now previousData reviews in
    let output :=
      {| outData := reviews;
         outSourceUrl := sourceUrl;
         outScrapedAt := now;
         outTotal := List.length reviews;
         outDiffReport := diffReport |} in
    _ <- writeUkuleleReviews output ;;
    ret output.

(** [extractBrandsFromTagCloud], from the [text()] of each link of the
    tag-cloud widget, in document order. *)
Definition extractBrandsFromTagCloud (linkTexts : list string) : list string :=
  let brands :=
    fold_left
      (fun brands linkText =>
         let brandName := trim linkText in
         if String.eqb brandName "" then brands
         else add brands (toUpperCase brandName))
      linkTexts [] in
  sort brands.

End Scraper.

(** ** The change detector's diff report *)

Module ChangeDetector.
Import Scraper.

Definition reviewEqb (a b : Review) : bool :=
  String.eqb (size a) (size b) && String.eqb (brand a) (brand b)
  && String.eqb (model a) (model b)
  && String.eqb (priceRange a) (priceRange b)
  && String.eqb (url a) (url b) && String.eqb (rating a) (rating b)
  && match reviewDate a, reviewDate b with
     | Some x, Some y => String.eqb x y
     | None, None => true
     | _, _ => false
     end.

Record Update : Type := {
  updUrl : string;
  updPrevious : Review;
  updCurrent : Review
}.

Record DiffReport : Type := {
  timestamp : string;
  changesNew : list Review;
  changesUpdated : list Update;
  changesRemoved : list Review;
  totalPrevious : nat;
  totalCurrent : nat;
  netChange : Z
}.

(** [previousUrls.includes(u)] on an array of strings. *)
Definition arrayIncludes (xs : list string) (x : string) : bool :=
  existsb (String.eqb x) xs.

(** [previousData] is [None] for [null]; [currentData] is an array, as it
    is at every call.  Two records with the same keys have the same
    [JSON.stringify] text exactly when their fields are equal. *)
Definition generateDiffReport (now : string)
    (previousData : option (list Review)) (currentData : list Review)
  : DiffReport :=
  let previousLength :=
    match previousData with Some l => List.length l | None => 0%nat end in
  let report newItems updatedItems removedItems :=
    {| timestamp := now;
       changesNew := newItems;
       changesUpdated := updatedItems;
       changesRemoved := removedItems;
       totalPrevious := previousLength;
       totalCurrent := List.length currentData;
       netChange :=
         (Z.of_nat (List.length currentData) - Z.of_nat previousLength)%Z |} in
  match previousData with
  | None => report currentData [] []
  | Some previousData =>
      let previousUrls := map url previousData in
      let currentUrls := map url currentData in
      report
        (filter (fun item => negb (arrayIncludes previousUrls (url item)))
           currentData)
        (flat_map
           (fun currentItem =>
              match find (fun p => String.eqb (url p) (url currentItem))
                      previousData with
              | Some previousItem =>
                  if negb (reviewEqb previousItem currentItem)
                  then [ {| updUrl := url currentItem;
                            updPrevious := previousItem;
                            updCurrent := currentItem |} ]
                  else []
              | None => []
              end)
           currentData)
        (filter (fun item => negb (arrayIncludes currentUrls (url item)))
           previousData)
  end.

(** *** The cache of seen URLs *)

(** An entry of [cache.urls]. *)
Record CacheEntry : Type := {
  ceUrl : string;
  ceLastSeen : string;
  ceContentHash : option string;
  ceTitle : option string
}.

(** The [data] argument of [updateCache]: an object with at most the keys
    [contentHash] and [title], holding strings; [None] is an absent key. *)
Record EntryData : Type := {
  dataContentHash : option string;
  dataTitle : option string
}.

(** [this.cache] when it is not [null].  [urls] is the object keyed by
    URL hash, in the order in which its keys were first assigned;
    [created] and [totalRuns] are the two fields of [cache.metadata]. *)
Record Cache : Type := {
  lastRun : option string;
  urls : list (string * CacheEntry);
  created : string;
  totalRuns : nat
}.

(** [urls[key]] *)
Fixpoint getEntry (urls : list (string * CacheEntry)) (key : string)
  : option CacheEntry :=
  match urls with
  | [] => None
  | (k, e) :: rest => if String.eqb k key then Some e else getEntry rest key
  end.

(** [urls[key] = entry]: an existing key keeps its place. *)
Fixpoint setEntry (urls : list (string * CacheEntry)) (key : string)
    (entry : CacheEntry) : list (string * CacheEntry) :=
  match urls with
  | [] => [(key, entry)]
  | (k, e) :: rest =>
      if String.eqb k key then (k, entry) :: rest
      else (k, e) :: setEntry rest key entry
  end.

Definition freshCache (now : string) : Cache :=
  {| lastRun := None; urls := []; created := now; totalRuns := 0 |}.

(** The result of [getChangeStats]. *)
Record ChangeStats : Type := {
  newUrls : nat;
  updatedUrls : nat;
  unchangedUrls : nat;
  totalCached : nat;
  newUrlsList : option (list string)
}.

Section WithHash.

(** [generateHash]: the MD5 digest of the URL in hexadecimal, computed by
    the platform's [crypto] module. *)
Variable generateHash : string -> string.

(** [contentHash] is [None] when the argument is omitted or [null]. *)
Definition isNewOrUpdated (cache : option Cache) (url : string)
    (contentHash : option string) : bool :=
  match cache with
  | None => true
  | Some cache =>
      let urlHash := generateHash url in
      match getEntry (urls cache) urlHash with
      | None => true
      | Some cached =>
          match contentHash with
          | None => false
          | Some h =>
              negb (String.eqb h "") &&
              negb (match ceContentHash cached with
                    | Some stored => String.eqb stored h
                    | None => false
                    end)
          end
      end
  end.

(** [updateCache].  With no cache in memory it starts [loadCache] without
    awaiting it, so [this.cache] is still [null] when [this.cache.urls]
    is read, and that read throws.  The spread of [data] comes last, so
    the stored [contentHash] and [title] are those of [data] when it has
    these keys and [null] otherwise. *)
Definition updateCache (now : string) (cache : option Cache) (url : string)
    (data : EntryData) : outcome unit * option Cache :=
  match cache with
  | None => (Throw "TypeError: Cannot read properties of null", None)
  | Some cache =>
      let urlHash := generateHash url in
      let entry :=
        {| ceUrl := url;
           ceLastSeen := now;
           ceContentHash := dataContentHash data;
           ceTitle := dataTitle data |} in
      (Return tt,
       Some {| lastRun := lastRun cache;
               urls := setEntry (urls cache) urlHash entry;
               created := created cache;
               totalRuns := totalRuns cache |})
  end.

Definition startNewRun (now : string) (cache : option Cache) : Cache :=
  let cache :=
    match cache with
    | None => freshCache now
    | Some cache => cache
    end in
  {| lastRun := Some now;
     urls := urls cache;
     created := created cache;
     totalRuns := S (totalRuns cache) |}.

Definition getChangeStats (cache : option Cache) (currentUrls : list string)
  : ChangeStats :=
  match cache with
  | None =>
      {| newUrls := List.length currentUrls;
         updatedUrls := 0;
         unchangedUrls := 0;
         totalCached := 0;
         newUrlsList := None |}
  | Some cache =>
      let cachedUrls := map (fun item => ceUrl (snd item)) (urls cache) in
      let newUrls :=
        filter (fun u => negb (arrayIncludes cachedUrls u)) currentUrls in
      let unchangedUrls :=
        filter (fun u => arrayIncludes cachedUrls u) currentUrls in
      {| newUrls := List.length newUrls;
         updatedUrls := 0;
         unchangedUrls := List.length unchangedUrls;
         totalCached := List.length cachedUrls;
         newUrlsList := Some newUrls |}
  end.

Definition getUrlsToScrape (cache : option Cache) (allUrls : list string)
    (forceAll : bool) : list string :=
  match cache with
  | None => allUrls
  | Some _ =>
      if forceAll then allUrls
      else filter (fun u => isNewOrUpdated cache u None) allUrls
  end.

End WithHash.

End ChangeDetector.

(** ** Vocabulary of the specification *)

Import Js Scraper.

(** The six size categories and the six price categories of the data
    model. *)
Definition sizeCategories : list string :=
  ["soprano"; "sopranino"; "concert"; "tenor"; "baritone"; "other"].

Definition priceCategories : list string :=
  ["<50"; "50-100"; "100-200"; "200-500"; "500+"; "unknown"].





(** The order of [Array.prototype.sort()] without a comparison function. *)
Definition codeUnitLe (a b : string) : Prop := String.leb a b = true.

(** The price ranges that [saveBrandMetadata] accepts. *)
Definition acceptedPriceRanges : list string :=
  ["<50"; "50-100"; "100-200"; "200-500"; "500+"].

(** Order of the sorted brand list: no shorter brand comes first. *)
Definition atLeastAsLong (a b : string) : Prop :=
  String.length b <= String.length a.

(** Document order of heading nodes. *)
Definition startLe (a b : node) : Prop := (startIndex a <= startIndex b)%Z.

(** [h] is the heading nearest before [n]: among the headings of
    [priceTitles] that start at or before [n], none starts later. *)
Definition NearestPreceding (n : node) (priceTitles : list node) (h : node)
  : Prop :=
  In h priceTitles /\ startLe h n /\
  forall h', In h' priceTitles -> startLe h' n -> startLe h' h.

(** The text nodes that the first sibling scan adds up: those whose
    data contain "out". *)
Definition isOutText (n : node) : bool :=
  match n with
  | Text _ d => includes d "out"
  | Tag _ _ => false
  end.

Definition outTexts (nodes : list node) : list string :=
  flat_map (fun n => match data n with Some d => [d] | None => [] end)
    (filter isOutText nodes).

Definition joinAll (texts : list string) : string :=
  fold_right append "" texts.

(** The data of the first text node of a sibling chain. *)
Fixpoint firstText (nodes : list node) : option string :=
  match nodes with
  | [] => None
  | Text _ d :: _ => Some d
  | Tag _ _ :: rest => firstText rest
  end.

(** The spans of a page are listed in document order, and a heading of
    an earlier row of the price table never starts after a heading of a
    later row: the price sections come in the order of the table. *)
Definition PageInTableOrder (spans : list span) : Prop :=
  StronglySorted (fun a b => startLe (firstChild a) (firstChild b)) spans /\
  forall i j ki kj a b,
    nth_error (map fst priceRanges) i = Some ki ->
    nth_error (map fst priceRanges) j = Some kj ->
    i < j ->
    In a spans -> In b spans ->
    startsWith (trim (spanText a)) ki = true ->
    startsWith (trim (spanText b)) kj = true ->
    startLe (firstChild a) (firstChild b).

(** Every entry of the cache sits under the hash of its own URL. *)
Definition WellKeyed (generateHash : string -> string)
    (cache : ChangeDetector.Cache) : Prop :=
  forall key entry,
    In (key, entry) (ChangeDetector.urls cache) ->
    key = generateHash (ChangeDetector.ceUrl entry).

(** [updateCache(url)] for each URL of a list in turn, with no data. *)
Definition cacheAll (generateHash : string -> string) (now : string)
    (cache : option ChangeDetector.Cache) (urlList : list string)
  : option ChangeDetector.Cache :=
  fold_left
    (fun cache u =>
       snd (ChangeDetector.updateCache generateHash now cache u
              {| ChangeDetector.dataContentHash := None;
                 ChangeDetector.dataTitle := None |}))
    urlList cache.

(** [startNewRun] once for each time of a list, from no cache at all. *)
Definition runs (times : list string) : option ChangeDetector.Cache :=
  fold_left (fun cache now => Some (ChangeDetector.startNewRun now cache))
    times None.

(** [sub] occurs in [s]; [s] begins with [p]. *)
Definition Occurs (sub s : string) : Prop :=
  exists pre post, s = pre ++ sub ++ post.

Definition Begins (p s : string) : Prop := exists post, s = p ++ post.

(** The elements of [xs] that are not in [excluded], in the order and
    number in which [xs] has them. *)
Definition without (xs excluded : list string) : list string :=
  filter (fun x => if in_dec string_dec x excluded then false else true) xs.

(** ** Fixtures *)

Definition heading (i : Z) (title : string) : span :=
  {| spanText := title; firstChild := Text i title |}.

(** A page whose five price headings come in the order of the price
    table. *)
Definition orderedPage : list span :=
  map (fun entry => heading (fst entry) (fst (snd entry)))
    (combine [100; 2000; 5000; 9000; 12000]%Z priceRanges).

(** A page where the most expensive section comes first. *)
Definition reversedPage : list span :=
  [ heading 10 ("Ukuleles " ++ pound ++ "500 plus");
    heading 50 ("Ukuleles " ++ pound ++ "0 - " ++ pound ++ "50") ].

(** On [reversedPage]: the heading of the cheapest section, which is the
    second heading of the page, and a link placed after both headings. *)
Definition cheapestHeading : node :=
  Text 50 ("Ukuleles " ++ pound ++ "0 - " ++ pound ++ "50").

Definition linkAfterBoth : node := Tag 90 "a".

(** A review link at position [i], followed on its line by [trailing]. *)
Definition reviewLink (i : Z) (title trailing : string) : anchor :=
  {| link := Tag i "a";
     href := Some "https://www.gotaukulele.com/2021/03/review.html";
     text := title;
     next := [Text (i + 40) trailing; Tag (i + 80) "br"];
     parentName := Some "div";
     parentNext := [] |}.

(** A link whose own line gives the rating as "8/10", followed by a line
    break and by the next review's link and rating. *)
Definition twoLines : anchor :=
  {| link := Tag 100 "a";
     href := Some "https://www.gotaukulele.com/2020/01/first.html";
     text := "Kala KA-15S Soprano";
     next := [ Text 140 " - 8/10 (Jan 2020)"; Tag 160 "br";
               Tag 170 "a"; Text 210 " - 9 out of 10 (Mar 2021)";
               Tag 240 "br" ];
     parentName := Some "div";
     parentNext := [] |}.

Definition review (u category : string) : Review :=
  {| size := "soprano"; brand := "KALA"; model := "KA-15S";
     priceRange := category; url := u; rating := "8";
     reviewDate := Some "2021-03-01" |}.

(** A record whose size is none of the six categories. *)
Definition bassReview : Review :=
  {| size := "bass"; brand := "KALA"; model := "U-Bass";
     priceRange := "200-500"; url := "https://www.gotaukulele.com/bass.html";
     rating := "9"; reviewDate := None |}.

Definition reviewOf (b u : string) : Review :=
  {| size := "concert"; brand := b; model := "One";
     priceRange := "50-100"; url := u; rating := "8";
     reviewDate := None |}.

(** A page with two price sections and a span that is no heading. *)
Definition smallPage : list span :=
  [ heading 100 ("Ukuleles " ++ pound ++ "0 - " ++ pound ++ "50");
    heading 900 "Some other bold text";
    heading 2000 ("Ukuleles " ++ pound ++ "50- " ++ pound ++ "100") ].

(** A link set in bold: the rating follows the [b] element, not the
    link. *)
Definition boldLink : anchor :=
  {| link := Tag 300 "a";
     href := Some "https://www.gotaukulele.com/2021/03/bold.html";
     text := "Ohana SK-10 Soprano";
     next := [];
     parentName := Some "b";
     parentNext := [Tag 340 "span"; Text 350 " - 7 out of 10 (Mar 2021)"] |}.

(** A stand-in for the digest: any function of the URL will do where a
    concrete cache is needed. *)
Definition toyHash (u : string) : string := "h:" ++ u.

Definition noData : ChangeDetector.EntryData :=
  {| ChangeDetector.dataContentHash := None;
     ChangeDetector.dataTitle := None |}.

Definition hashedData (h : string) : ChangeDetector.EntryData :=
  {| ChangeDetector.dataContentHash := Some h;
     ChangeDetector.dataTitle := None |}.

(** A link at the top of the main content, with no parent element, whose
    line holds no "out". *)
Definition topLink : anchor :=
  {| link := Tag 20 "a";
     href := Some "https://www.gotaukulele.com/2019/05/top.html";
     text := "Flight TUS35 Soprano";
     next := [Text 60 " - 8/10 (May 2019)"; Tag 90 "br"];
     parentName := None;
     parentNext := [] |}.

(** A stand-in for [parseFloat] that is right on numerals which are
    already written the way [JSON.stringify] writes them, such as "8"
    and "8.5". *)
Definition asWritten (numeral : string) : string := numeral.

(** A cache after one run in which two URLs were stored. *)
Definition cachedEntry (u : string) : ChangeDetector.CacheEntry :=
  {| ChangeDetector.ceUrl := u;
     ChangeDetector.ceLastSeen := "2026-01-01T00:00:00.000Z";
     ChangeDetector.ceContentHash := None;
     ChangeDetector.ceTitle := None |}.

Definition twoSeen : ChangeDetector.Cache :=
  {| ChangeDetector.lastRun := Some "2026-01-01T00:00:00.000Z";
     ChangeDetector.urls :=
       [ (toyHash "https://www.gotaukulele.com/a.html",
          cachedEntry "https://www.gotaukulele.com/a.html");
         (toyHash "https://www.gotaukulele.com/b.html",
          cachedEntry "https://www.gotaukulele.com/b.html") ];
     ChangeDetector.created := "2026-01-01T00:00:00.000Z";
     ChangeDetector.totalRuns := 1 |}.

(** An output directory that holds a metadata file with two brands. *)
Definition savedDir : FileSystem :=
  {| otherData :=
       Some {| mdLastUpdated := "2026-01-01T00:00:00.000Z";
               mdBrands := ["KALA"; "OHANA"];
               mdSizes := ["Soprano"; "Concert"; "Tenor"; "Baritone";
                           "Sopranino"; "Other"];
               mdPriceRanges := ["<50"; "50-100"; "100-200"; "200-500";
                                 "500+"] |};
     ukuleleReviews := None;
     written := [] |}.

Definition emptyDir : FileSystem :=
  {| otherData := None; ukuleleReviews := None; written := [] |}.

(** ** Facts about strings *)

Ltac pick_member :=
  simpl; repeat (first [left; reflexivity | right]).

Lemma append_assoc (a b c : string) : (a ++ b) ++ c = a ++ b ++ c.
Proof.
  induction a as [|x a IH]; simpl; [reflexivity | now rewrite IH].
Qed.

Lemma append_nil_r (s : string) : s ++ "" = s.
Proof.
  induction s as [|x s IH]; simpl; [reflexivity | now rewrite IH].
Qed.

Lemma length_append (a b : string) :
  String.length (a ++ b) = String.length a + String.length b.
Proof.
  induction a as [|x a IH]; simpl; [reflexivity | now rewrite IH].
Qed.

Lemma length_zero (s : string) : String.length s = 0 -> s = "".
Proof. destruct s; simpl; [reflexivity | discriminate]. Qed.

Lemma startsWith_spec (s p : string) :
  startsWith s p = true <-> exists post, s = p ++ post.
Proof.
  unfold startsWith. revert s.
  induction p as [|x p IH]; intros s.
  - split; [intros _; exists s; reflexivity | intros _; now destruct s].
  - destruct s as [|y s]; simpl.
    + split; [discriminate | intros [post H]; discriminate].
    + destruct (Ascii.ascii_dec x y) as [->|Hne].
      * rewrite IH. split; intros [post H]; exists post.
        -- now rewrite H.
        -- now inversion H.
      * split; [discriminate | intros [post H]; congruence].
Qed.

Lemma includes_spec (s sub : string) :
  includes s sub = true <-> exists pre post, s = pre ++ sub ++ post.
Proof.
  induction s as [|x s IH]; cbn [includes]; rewrite orb_true_iff, startsWith_spec.
  - split.
    + intros [[post H]|H]; [|discriminate]. exists "", post. exact H.
    + intros [pre [post H]]. left. exists post.
      destruct pre; simpl in H; [exact H | discriminate].
  - rewrite IH. split.
    + intros [[post H]|[pre [post H]]].
      * exists "", post. exact H.
      * exists (String x pre), post. simpl. now rewrite H.
    + intros [pre [post H]]. destruct pre as [|y pre]; simpl in H.
      * left. exists post. exact H.
      * right. exists pre, post. now inversion H.
Qed.

Lemma includes_false (s sub : string) :
  includes s sub = false <-> forall pre post, s <> pre ++ sub ++ post.
Proof.
  rewrite <- not_true_iff_false, includes_spec. split.
  - intros H pre post E. apply H. now exists pre, post.
  - intros H [pre [post E]]. exact (H pre post E).
Qed.

(** ** Size and price categories *)

Lemma extractSize_in (title : string) : In (extractSize title) sizeCategories.
Proof.
  unfold extractSize, getEdgeCaseSize.
  destruct (String.eqb _ "enya euc-ms"); [pick_member|].
  repeat match goal with
         | |- context [if ?b then _ else _] => destruct b; [pick_member|]
         end.
  pick_member.
Qed.

Lemma mapPriceRange_in (text : string) :
  In (mapPriceRange text) priceCategories.
Proof.
  unfold mapPriceRange.
  repeat match goal with
         | |- context [if ?b then _ else _] => destruct b; [pick_member|]
         end.
  pick_member.
Qed.

Lemma extractReviewPrice_Return (n : node) (priceTitles : list node)
    (category : string) :
  extractReviewPrice n priceTitles = Return category ->
  exists h text,
    priceNodeFor n priceTitles = Some h /\ data h = Some text /\
    category = mapPriceRange text.
Proof.
  unfold extractReviewPrice.
  destruct (priceNodeFor n priceTitles) as [h|]; [|discriminate].
  destruct (data h) as [text|] eqn:Hd; [|discriminate].
  intros H. inversion H. now exists h, text.
Qed.

(** C3 (amended).  Outside the title exception the size keywords are
    tried in the order soprano, sopranino, concert, tenor, baritone, and
    the first one contained in the lower-cased title decides.  The word
    sopranino does not contain the word soprano, so a title that contains
    sopranino and not soprano is a sopranino. *)
Theorem extractSize_priority (title : string) :
  getEdgeCaseSize title = None ->
  let lowerTitle := toLowerCase title in
  (includes lowerTitle "soprano" = true -> extractSize title = "soprano") /\
  (includes lowerTitle "soprano" = false ->
   includes lowerTitle "sopranino" = true ->
   extractSize title = "sopranino") /\
  (includes lowerTitle "soprano" = false ->
   includes lowerTitle "sopranino" = false ->
   includes lowerTitle "concert" = true ->
   extractSize title = "concert") /\
  (includes lowerTitle "soprano" = false ->
   includes lowerTitle "sopranino" = false ->
   includes lowerTitle "concert" = false ->
   includes lowerTitle "tenor" = true ->
   extractSize title = "tenor") /\
  (includes lowerTitle "soprano" = false ->
   includes lowerTitle "sopranino" = false ->
   includes lowerTitle "concert" = false ->
   includes lowerTitle "tenor" = false ->
   includes lowerTitle "baritone" || includes lowerTitle "bari " = true ->
   extractSize title = "baritone") /\
  includes "sopranino" "soprano" = false /\
  (forall pre post, "sopranino" <> pre ++ "soprano" ++ post).
Proof.
  intros Hedge lowerTitle. unfold extractSize. rewrite Hedge.
  fold lowerTitle.
  do 6 (split; [intros;
                repeat match goal with
                       | H : _ = _ |- _ => rewrite H
                       end; reflexivity|]).
  now apply includes_false.
Qed.

(** The claim of C3 as the specification words it fails on a plain
    sopranino title: the title contains sopranino, is not the exception,
    does not contain soprano, and is classified sopranino. *)
Lemma extractSize_sopranino_is_not_soprano :
  getEdgeCaseSize "Kala Sopranino" = None /\
  includes (toLowerCase "Kala Sopranino") "sopranino" = true /\
  includes (toLowerCase "Kala Sopranino") "soprano" = false /\
  extractSize "Kala Sopranino" = "sopranino" /\
  extractSize "Kala Sopranino" <> "soprano".
Proof.
  repeat split; try reflexivity. vm_compute. discriminate.
Qed.

Lemma extractSize_priority_witness :
  extractSize "Kala Sopranino" = "sopranino".
Proof.
  apply (proj1 (proj2 (extractSize_priority "Kala Sopranino" eq_refl)));
    reflexivity.
Defined.

(** C6.  [extractSize] only returns one of the six size categories and
    [mapPriceRange] only one of the six price categories; so every record
    that the link loop builds, and every review made from it, has its
    size and its price range in these categories. *)
Theorem categories_closed :
  (forall title, In (extractSize title) sizeCategories) /\
  (forall text, In (mapPriceRange text) priceCategories) /\
  (forall parseFloat a h i priceTitleNodes ratingText dateText reviewData,
      reviewDataOf parseFloat a h i priceTitleNodes ratingText dateText
        = Return reviewData ->
      In (rdSize reviewData) sizeCategories /\
      In (rdPriceRange reviewData) priceCategories /\
      forall brandModel,
        In (size (toReview brandModel reviewData)) sizeCategories /\
        In (priceRange (toReview brandModel reviewData)) priceCategories).
Proof.
  split; [exact extractSize_in|]. split; [exact mapPriceRange_in|].
  intros parseFloat a h i titles r d rd. unfold reviewDataOf.
  destruct (extractReviewPrice (link a) titles) as [category|e] eqn:Hp;
    [|discriminate].
  apply extractReviewPrice_Return in Hp.
  destruct Hp as [hd [heading [_ [_ ->]]]].
  intros H. inversion H; subst; clear H. simpl.
  pose proof (extractSize_in (trim (text a))) as Hs.
  pose proof (mapPriceRange_in heading) as Hm.
  repeat split; assumption.
Qed.

Lemma categories_closed_witness :
  In (rdSize {| rdTitle := "Kala KA-15S Soprano";
                rdUrl := "https://www.gotaukulele.com/2021/03/review.html";
                rdRating := "8"; rdPriceRange := "50-100";
                rdReviewDate := Some "2021-03-01"; rdSize := "soprano";
                rdIndex := 0 |}) sizeCategories.
Proof.
  refine (proj1 (proj2 (proj2 categories_closed) asWritten
    (reviewLink 3000 "Kala KA-15S Soprano" " - 8 out of 10 (Mar 2021)")
    "https://www.gotaukulele.com/2021/03/review.html" 0
    (collectPriceTitleNodes orderedPage) "8" "Mar 2021" _ _)).
  reflexivity.
Defined.

(** ** Sets in insertion order *)

Lemma has_spec (set : list string) (x : string) :
  has set x = true <-> In x set.
Proof.
  unfold has. rewrite existsb_exists. split.
  - intros [y [Hy E]]. apply String.eqb_eq in E. now subst.
  - intros H. exists x. split; [exact H | apply String.eqb_refl].
Qed.

Lemma has_false (set : list string) (x : string) :
  has set x = false <-> ~ In x set.
Proof. rewrite <- not_true_iff_false, has_spec. reflexivity. Qed.

Lemma add_In (set : list string) (x y : string) :
  In y (add set x) <-> In y set \/ y = x.
Proof.
  unfold add. destruct (has set x) eqn:E.
  - apply has_spec in E. split; [tauto | intros [H| ->]; assumption].
  - rewrite in_app_iff. simpl. intuition.
Qed.

Lemma add_NoDup (set : list string) (x : string) :
  NoDup set -> NoDup (add set x).
Proof.
  intros H. unfold add. destruct (has set x) eqn:E; [exact H|].
  apply has_false in E. apply NoDup_app; [exact H | repeat constructor; easy|].
  intros y Hy [<-|[]]. exact (E Hy).
Qed.

Lemma fold_add_In (xs acc : list string) (y : string) :
  In y (fold_left add xs acc) <-> In y acc \/ In y xs.
Proof.
  revert acc. induction xs as [|x xs IH]; intros acc; simpl.
  - tauto.
  - rewrite IH, add_In. intuition.
Qed.

Lemma fold_add_NoDup (xs acc : list string) :
  NoDup acc -> NoDup (fold_left add xs acc).
Proof.
  revert acc. induction xs as [|x xs IH]; intros acc H; simpl.
  - exact H.
  - apply IH, add_NoDup, H.
Qed.

Lemma newSet_In (xs : list string) (y : string) :
  In y (newSet xs) <-> In y xs.
Proof. unfold newSet. rewrite fold_add_In. simpl. tauto. Qed.

Lemma newSet_NoDup (xs : list string) : NoDup (newSet xs).
Proof. apply fold_add_NoDup. constructor. Qed.

(** ** Metadata validation and the driver *)

Lemma checkForNewBrands_reads_only (currentBrands : list string)
    (fs : FileSystem) :
  snd (checkForNewBrands currentBrands fs) = fs /\
  exists newBrands, fst (checkForNewBrands currentBrands fs) = Return newBrands.
Proof.
  unfold checkForNewBrands, bind, readOtherData, ret.
  destruct (otherData fs); simpl; eauto.
Qed.

Lemma saveBrandMetadata_unknown (now : string) (reviews : list Review)
    (fs : FileSystem) :
  (exists r, In r reviews /\ priceRange r = "unknown") ->
  saveBrandMetadata now reviews fs
    = (Throw "Unexpected price ranges found in reviews", fs).
Proof.
  intros [r [Hin Hunknown]]. unfold saveBrandMetadata.
  cbn [mdPriceRanges].
  destruct (forallb _ (newSet (map priceRange reviews))) eqn:E.
  - rewrite forallb_forall in E.
    assert (In "unknown" (newSet (map priceRange reviews))) as Hmem.
    { apply newSet_In. rewrite <- Hunknown. apply in_map, Hin. }
    apply E in Hmem. vm_compute in Hmem. discriminate.
  - reflexivity.
Qed.

(** C10.  A review list with a record whose price range is "unknown"
    makes [saveBrandMetadata] throw and leaves the output directory as it
    was, so the metadata file is not written; the run as a whole throws
    the same error with nothing written.  "unknown" is nevertheless one
    of the six price categories, and [mapPriceRange] does return it. *)
Theorem saveBrandMetadata_rejects_unknown (now : string)
    (reviews : list Review) (fs : FileSystem) :
  (exists r, In r reviews /\ priceRange r = "unknown") ->
  saveBrandMetadata now reviews fs
    = (Throw "Unexpected price ranges found in reviews", fs) /\
  scrape now (Return reviews) fs
    = (Throw "Unexpected price ranges found in reviews", fs) /\
  In "unknown" priceCategories /\
  mapPriceRange "Vintage instruments" = "unknown".
Proof.
  intros H. split; [now apply saveBrandMetadata_unknown|].
  split; [|split; [pick_member | reflexivity]].
  unfold scrape, extractAllReviews, bind.
  destruct (checkForNewBrands_reads_only
              (sort (newSet (map brand reviews))) fs) as [Hfs [nb Hnb]].
  destruct (checkForNewBrands _ fs) as [o fs'].
  simpl in Hfs, Hnb. subst.
  now rewrite (saveBrandMetadata_unknown now reviews fs H).
Qed.

Lemma saveBrandMetadata_rejects_unknown_witness :
  saveBrandMetadata "2026-01-01T00:00:00.000Z"
    [review "https://www.gotaukulele.com/a.html" "100-200";
     review "https://www.gotaukulele.com/b.html" "unknown"] emptyDir
    = (Throw "Unexpected price ranges found in reviews", emptyDir).
Proof.
  apply (saveBrandMetadata_rejects_unknown "2026-01-01T00:00:00.000Z" _
           emptyDir).
  exists (review "https://www.gotaukulele.com/b.html" "unknown").
  split; [right; left; reflexivity | reflexivity].
Defined.

(** C2 (amended).  When extraction yields no review, [scrape] throws "No
    reviews found" and the reviews file is left as it was; the metadata
    file, however, has already been written by [extractAllReviews], with
    an empty brand list. *)
Theorem scrape_zero_reviews (now : string) (fs : FileSystem) :
  scrape now (Return []) fs
    = (Throw "No reviews found",
       {| otherData :=
            Some {| mdLastUpdated := now;
                    mdBrands := [];
                    mdSizes := ["Soprano"; "Concert"; "Tenor"; "Baritone";
                                "Sopranino"; "Other"];
                    mdPriceRanges := ["<50"; "50-100"; "100-200"; "200-500";
                                      "500+"] |};
          ukuleleReviews := ukuleleReviews fs;
          written := (written fs ++ ["other-data.json"])%list |}).
Proof.
  unfold scrape, extractAllReviews, bind, checkForNewBrands, readOtherData.
  unfold bind. destruct (otherData fs); reflexivity.
Qed.

(** The claim of C2 as the specification words it fails: on an empty
    output directory a run without reviews throws, and by then the
    metadata file has been written. *)
Lemma scrape_zero_reviews_has_written :
  fst (scrape "2026-01-01T00:00:00.000Z" (Return []) emptyDir)
    = Throw "No reviews found" /\
  written (snd (scrape "2026-01-01T00:00:00.000Z" (Return []) emptyDir))
    = ["other-data.json"] /\
  otherData (snd (scrape "2026-01-01T00:00:00.000Z" (Return []) emptyDir))
    <> None /\
  snd (scrape "2026-01-01T00:00:00.000Z" (Return []) emptyDir) <> emptyDir.
Proof.
  repeat split; try reflexivity; vm_compute; discriminate.
Qed.

(** ** Text that follows a link *)

(** C4, at the failing input.  The scan over the siblings of a link does
    not stop at a line break: a [br] or [div] element is passed over like
    any other element.  For a link whose own line holds no "out", the
    text collected is the rating of the next review, two line breaks
    further on. *)
Theorem followingText_crosses_line_break :
  (forall i rest, scanSiblings (Tag i "br" :: rest) "" = scanSiblings rest "")
  /\
  (forall i rest, scanSiblings (Tag i "div" :: rest) "" = scanSiblings rest "")
  /\
  followingTextOf twoLines = Return " - 9 out of 10 (Mar 2021)".
Proof.
  repeat split.
Qed.

(** ** Diff reports *)

Lemma arrayIncludes_spec (xs : list string) (x : string) :
  ChangeDetector.arrayIncludes xs x = true <-> In x xs.
Proof. exact (has_spec xs x). Qed.

Lemma has_newSet (xs : list string) (x : string) :
  has (newSet xs) x = ChangeDetector.arrayIncludes xs x.
Proof.
  apply eq_true_iff_eq.
  now rewrite has_spec, arrayIncludes_spec, newSet_In.
Qed.

Lemma filter_nothing {A : Type} (p : A -> bool) (l : list A) :
  (forall x, In x l -> p x = false) -> filter p l = [].
Proof.
  induction l as [|a l IH]; intros H; simpl; [reflexivity|].
  rewrite (H a (or_introl eq_refl)). apply IH. intros x Hx. apply H. now right.
Qed.

Lemma filter_only {A : Type} (p : A -> bool) (pre post : list A) (a : A) :
  (forall x, In x pre -> p x = false) ->
  (forall x, In x post -> p x = false) ->
  p a = true ->
  filter p (pre ++ a :: post) = [a].
Proof.
  intros Hpre Hpost Ha. rewrite filter_app. simpl. rewrite Ha.
  now rewrite (filter_nothing p pre Hpre), (filter_nothing p post Hpost).
Qed.

Lemma filter_unique {A : Type} (p : A -> bool) (l : list A) (a : A) :
  NoDup l -> In a l -> p a = true ->
  (forall x, In x l -> x <> a -> p x = false) ->
  filter p l = [a].
Proof.
  intros Hnd Hin Ha Hothers.
  destruct (in_split a l Hin) as [pre [post ->]].
  apply NoDup_remove_2 in Hnd.
  apply filter_only; [| |exact Ha]; intros x Hx; apply Hothers.
  - apply in_or_app. now left.
  - intros ->. apply Hnd, in_or_app. now left.
  - apply in_or_app. right. now right.
  - intros ->. apply Hnd, in_or_app. now right.
Qed.

(** C5.  Both diff implementations classify by URL: the new records are
    the current records whose URL no previous record has, and the removed
    entries are the previous URLs (scraper) or previous records (change
    detector) whose URL no current record has.  Adding one record with a
    fresh URL gives exactly that record as new and nothing removed;
    taking away the one record that has some URL gives exactly that URL,
    or that record, as removed and nothing new. *)
Theorem diff_by_url (now : string) (previous current : list Review) :
  let s := Scraper.generateDiffReport now (Some previous) current in
  let c := ChangeDetector.generateDiffReport now (Some previous) current in
  (forall r, In r (Scraper.changesNew s) <->
             In r current /\ ~ In (url r) (map url previous)) /\
  (forall u, In u (Scraper.changesRemoved s) <->
             In u (map url previous) /\ ~ In u (map url current)) /\
  (forall r, In r (ChangeDetector.changesNew c) <->
             In r current /\ ~ In (url r) (map url previous)) /\
  (forall r, In r (ChangeDetector.changesRemoved c) <->
             In r previous /\ ~ In (url r) (map url current)) /\
  Scraper.changesNew s = ChangeDetector.changesNew c /\
  NoDup (Scraper.changesRemoved s) /\
  (forall pre post r,
      previous = (pre ++ post)%list -> current = (pre ++ r :: post)%list ->
      ~ In (url r) (map url previous) ->
      Scraper.changesNew s = [r] /\ Scraper.changesRemoved s = [] /\
      ChangeDetector.changesNew c = [r] /\
      ChangeDetector.changesRemoved c = []) /\
  (forall pre post r,
      previous = (pre ++ r :: post)%list -> current = (pre ++ post)%list ->
      ~ In (url r) (map url current) ->
      Scraper.changesNew s = [] /\ Scraper.changesRemoved s = [url r] /\
      ChangeDetector.changesNew c = [] /\
      ChangeDetector.changesRemoved c = [r]).
Proof.
  intros s c. subst s c. cbn -[newSet has ChangeDetector.arrayIncludes].
  assert (Hagree :
    filter (fun item => negb (has (newSet (map url previous)) (url item)))
      current
    = filter (fun item =>
                negb (ChangeDetector.arrayIncludes (map url previous)
                        (url item))) current).
  { apply filter_ext. intros r. now rewrite has_newSet. }
  assert (Hnew : forall r,
    In r (filter (fun item =>
                    negb (ChangeDetector.arrayIncludes (map url previous)
                            (url item))) current)
    <-> In r current /\ ~ In (url r) (map url previous)).
  { intros r. rewrite filter_In, negb_true_iff.
    rewrite <- not_true_iff_false, arrayIncludes_spec. reflexivity. }
  assert (Hrem : forall u,
    In u (filter (fun u => negb (has (newSet (map url current)) u))
            (newSet (map url previous)))
    <-> In u (map url previous) /\ ~ In u (map url current)).
  { intros u. rewrite filter_In, negb_true_iff, has_false.
    now rewrite !newSet_In. }
  assert (Hremc : forall r,
    In r (filter (fun item =>
                    negb (ChangeDetector.arrayIncludes (map url current)
                            (url item))) previous)
    <-> In r previous /\ ~ In (url r) (map url current)).
  { intros r. rewrite filter_In, negb_true_iff.
    rewrite <- not_true_iff_false, arrayIncludes_spec. reflexivity. }
  rewrite Hagree.
  split; [exact Hnew|]. split; [exact Hrem|]. split; [exact Hnew|].
  split; [exact Hremc|]. split; [reflexivity|].
  split; [apply NoDup_filter, newSet_NoDup|].
  split.
  - intros pre post r Hprev Hcur Hfresh.
    assert (Hsub : forall u, In u (map url previous) -> In u (map url current)).
    { intros u. rewrite Hprev, Hcur, !map_app, !in_app_iff. simpl. tauto. }
    assert (Hnewr :
      filter (fun item =>
                negb (ChangeDetector.arrayIncludes (map url previous)
                        (url item))) current = [r]).
    { rewrite Hcur. apply filter_only.
      - intros x Hx. apply negb_false_iff, arrayIncludes_spec, in_map.
        rewrite Hprev. apply in_or_app. now left.
      - intros x Hx. apply negb_false_iff, arrayIncludes_spec, in_map.
        rewrite Hprev. apply in_or_app. now right.
      - apply negb_true_iff, not_true_iff_false.
        now rewrite arrayIncludes_spec. }
    repeat split; try exact Hnewr.
    + apply filter_nothing. intros u Hu. rewrite newSet_In in Hu.
      rewrite negb_false_iff, has_spec, newSet_In. exact (Hsub u Hu).
    + apply filter_nothing. intros x Hx.
      apply negb_false_iff, arrayIncludes_spec, Hsub, in_map, Hx.
  - intros pre post r Hprev Hcur Hgone.
    assert (Hsub : forall x, In x current -> In x previous).
    { intros x. rewrite Hprev, Hcur, !in_app_iff. simpl. tauto. }
    assert (Hnone :
      filter (fun item =>
                negb (ChangeDetector.arrayIncludes (map url previous)
                        (url item))) current = []).
    { apply filter_nothing. intros x Hx.
      apply negb_false_iff, arrayIncludes_spec, in_map, Hsub, Hx. }
    repeat split; try exact Hnone.
    + apply filter_unique.
      * apply newSet_NoDup.
      * rewrite newSet_In, Hprev, map_app. apply in_or_app.
        right. now left.
      * rewrite negb_true_iff, has_false, newSet_In. exact Hgone.
      * intros u Hu Hne. rewrite newSet_In in Hu.
        rewrite negb_false_iff, has_spec, newSet_In.
        rewrite Hprev, map_app, in_app_iff in Hu. simpl in Hu.
        rewrite Hcur, map_app, in_app_iff.
        destruct Hu as [Hu|[Hu|Hu]]; [now left | congruence | now right].
    + rewrite Hprev. apply filter_only.
      * intros x Hx. apply negb_false_iff, arrayIncludes_spec, in_map.
        rewrite Hcur. apply in_or_app. now left.
      * intros x Hx. apply negb_false_iff, arrayIncludes_spec, in_map.
        rewrite Hcur. apply in_or_app. now right.
      * apply negb_true_iff, not_true_iff_false.
        now rewrite arrayIncludes_spec.
Qed.

Lemma diff_by_url_witness :
  Scraper.changesRemoved
    (Scraper.generateDiffReport "2026-01-01T00:00:00.000Z"
       (Some [review "https://www.gotaukulele.com/a.html" "100-200";
              review "https://www.gotaukulele.com/b.html" "50-100"])
       [review "https://www.gotaukulele.com/a.html" "100-200"])
    = ["https://www.gotaukulele.com/b.html"].
Proof.
  refine (proj1 (proj2
    (proj2 (proj2 (proj2 (proj2 (proj2 (proj2 (proj2
       (diff_by_url "2026-01-01T00:00:00.000Z"
          [review "https://www.gotaukulele.com/a.html" "100-200";
           review "https://www.gotaukulele.com/b.html" "50-100"]
          [review "https://www.gotaukulele.com/a.html" "100-200"])))))))
       [review "https://www.gotaukulele.com/a.html" "100-200"] []
       (review "https://www.gotaukulele.com/b.html" "50-100")
       eq_refl eq_refl _))).
  simpl. intros [H|[]]. discriminate H.
Defined.

(** ** Brand matching *)

Lemma insertByLength_In (b : string) (l : list string) (x : string) :
  In x (insertByLength b l) <-> x = b \/ In x l.
Proof.
  induction l as [|c l IH]; simpl.
  - intuition.
  - destruct (String.length c <=? String.length b)%nat; simpl.
    + intuition.
    + rewrite IH. intuition.
Qed.

Lemma sortByLengthDesc_In (l : list string) (x : string) :
  In x (sortByLengthDesc l) <-> In x l.
Proof.
  induction l as [|b l IH]; simpl; [tauto|].
  rewrite insertByLength_In, IH. intuition.
Qed.

Lemma insertByLength_sorted (b : string) (l : list string) :
  StronglySorted atLeastAsLong l ->
  StronglySorted atLeastAsLong (insertByLength b l).
Proof.
  induction l as [|c l IH]; intros Hs; simpl.
  - repeat constructor.
  - inversion Hs as [|? ? Hl Hc]; subst.
    destruct (String.length c <=? String.length b)%nat eqn:E.
    + apply Nat.leb_le in E. constructor; [exact Hs|].
      constructor; [exact E|].
      rewrite Forall_forall in *. intros x Hx.
      unfold atLeastAsLong in *. specialize (Hc x Hx). lia.
    + apply Nat.leb_gt in E. constructor; [apply IH, Hl|].
      rewrite Forall_forall in *. intros x Hx.
      apply insertByLength_In in Hx. destruct Hx as [->|Hx].
      * unfold atLeastAsLong. lia.
      * apply Hc, Hx.
Qed.

Lemma sortByLengthDesc_sorted (l : list string) :
  StronglySorted atLeastAsLong (sortByLengthDesc l).
Proof.
  induction l as [|b l IH]; simpl;
    [constructor | apply insertByLength_sorted, IH].
Qed.

Lemma firstIncluded_None (t : string) (l : list string) :
  firstIncluded t l = None <-> forall b, In b l -> includes t b = false.
Proof.
  induction l as [|c l IH]; simpl.
  - split; [intros _ b [] | reflexivity].
  - destruct (includes t c) eqn:E.
    + split; [discriminate|]. intros H.
      rewrite (H c (or_introl eq_refl)) in E. discriminate.
    + rewrite IH. split.
      * intros H b [<-|Hb]; [exact E | apply H, Hb].
      * intros H b Hb. apply H. now right.
Qed.

Lemma firstIncluded_Some (t : string) (l : list string) (b : string) :
  StronglySorted atLeastAsLong l ->
  firstIncluded t l = Some b ->
  In b l /\ includes t b = true /\
  forall b', In b' l -> includes t b' = true -> atLeastAsLong b b'.
Proof.
  induction l as [|c l IH]; intros Hs; simpl; [discriminate|].
  inversion Hs as [|? ? Hl Hc]; subst. rewrite Forall_forall in Hc.
  destruct (includes t c) eqn:E.
  - intros H. inversion H; subst. split; [now left|]. split; [exact E|].
    intros b' [<-|Hb'] _; [unfold atLeastAsLong; lia | apply Hc, Hb'].
  - intros H. destruct (IH Hl H) as [Hin [Hinc Hmax]].
    split; [now right|]. split; [exact Hinc|].
    intros b' [<-|Hb'] Hb'inc; [congruence | now apply Hmax].
Qed.

Lemma splitWsHead_spec (title : string) :
  exists rest,
    title = splitWsHead title ++ rest /\
    allChars (fun c => negb (isWhiteSpace c)) (splitWsHead title) = true /\
    (rest = "" \/ exists c r, rest = String c r /\ isWhiteSpace c = true).
Proof.
  induction title as [|c title [rest [Ht [Hh Hr]]]]; simpl.
  - exists "". auto.
  - destruct (isWhiteSpace c) eqn:E.
    + exists (String c title). simpl. split; [reflexivity|].
      split; [reflexivity|]. right. now exists c, title.
    + exists rest. simpl. rewrite E, Hh. simpl.
      split; [now rewrite <- Ht|]. split; [reflexivity | exact Hr].
Qed.

(** C7 (amended).  When some catalog brand occurs in the upper-cased
    title, [findBestMatchingBrand] returns a catalog brand that occurs
    there and is at least as long as every other catalog brand that
    does.  When none occurs, it returns the characters of the title
    before its first white space, upper-cased, unless there are none (an
    empty title, or one that starts with white space), in which case it
    returns "UNKNOWN".  With the catalog KALA, KALA BRAND the title "Kala
    Brand KA-S Soprano" gives KALA BRAND. *)
Theorem findBestMatchingBrand_longest (title : string)
    (brandList : list string) :
  let titleUpper := toUpperCase title in
  let found := findBestMatchingBrand title brandList in
  ((exists b, In b brandList /\ includes titleUpper b = true) ->
   In found brandList /\ includes titleUpper found = true /\
   forall b, In b brandList -> includes titleUpper b = true ->
             String.length b <= String.length found) /\
  ((forall b, In b brandList -> includes titleUpper b = false) ->
   (splitWsHead title <> "" -> found = toUpperCase (splitWsHead title)) /\
   (splitWsHead title = "" -> found = "UNKNOWN")) /\
  (exists rest,
     title = splitWsHead title ++ rest /\
     allChars (fun c => negb (isWhiteSpace c)) (splitWsHead title) = true /\
     (rest = "" \/ exists c r, rest = String c r /\ isWhiteSpace c = true)) /\
  findBestMatchingBrand "Kala Brand KA-S Soprano" ["KALA"; "KALA BRAND"]
    = "KALA BRAND".
Proof.
  intros titleUpper found. subst found. unfold findBestMatchingBrand.
  fold titleUpper.
  split; [|split; [|split; [apply splitWsHead_spec | reflexivity]]].
  - intros [b [Hb Hinc]].
    destruct (firstIncluded titleUpper (sortByLengthDesc brandList))
      as [brand|] eqn:E.
    + destruct (firstIncluded_Some _ _ _ (sortByLengthDesc_sorted brandList) E)
        as [Hin [Hfound Hmax]].
      split; [now apply sortByLengthDesc_In|]. split; [exact Hfound|].
      intros b' Hb' Hb'inc. apply Hmax; [|exact Hb'inc].
      now apply sortByLengthDesc_In.
    + rewrite firstIncluded_None in E.
      rewrite (E b) in Hinc; [discriminate | now apply sortByLengthDesc_In].
  - intros Hnone.
    assert (firstIncluded titleUpper (sortByLengthDesc brandList) = None) as ->.
    { apply firstIncluded_None. intros b Hb.
      apply Hnone. now apply sortByLengthDesc_In. }
    destruct (String.eqb_spec (splitWsHead title) ""); split; congruence.
Qed.

Lemma findBestMatchingBrand_longest_witness :
  findBestMatchingBrand "Ohana SK-10 Soprano" ["KALA"; "MARTIN"] = "OHANA".
Proof.
  apply (proj1 (proj1 (proj2
    (findBestMatchingBrand_longest "Ohana SK-10 Soprano" ["KALA"; "MARTIN"]))
    ltac:(intros b [<-|[<-|[]]]; reflexivity))).
  discriminate.
Defined.

(** The claim of C7 as the specification words it fails on a title that
    starts with white space: no catalog brand occurs in it, its first
    word is "kala", and the result is neither "KALA" nor the upper-cased
    first element of the split, but "UNKNOWN". *)
Lemma findBestMatchingBrand_unknown :
  (forall b, In b ["MARTIN"; "OHANA"] ->
             includes (toUpperCase " kala ka-15s") b = false) /\
  findBestMatchingBrand " kala ka-15s" ["MARTIN"; "OHANA"] = "UNKNOWN" /\
  findBestMatchingBrand " kala ka-15s" ["MARTIN"; "OHANA"] <> "KALA" /\
  findBestMatchingBrand " kala ka-15s" ["MARTIN"; "OHANA"]
    <> toUpperCase (splitWsHead " kala ka-15s").
Proof.
  split; [intros b [<-|[<-|[]]]; reflexivity|].
  split; [reflexivity|]. split; vm_compute; discriminate.
Qed.

(** ** Price attribution by position *)

Lemma priceNode_step_last (n : node) (l : list node) (acc : option node) :
  (fold_left
     (fun priceNode priceTitleNode =>
        if negb (isHigherInDom n priceTitleNode)
        then Some priceTitleNode else priceNode) l acc = acc /\
   forall h, In h l -> ~ startLe h n) \/
  (exists l1 h l2,
      l = (l1 ++ h :: l2)%list /\
      fold_left
        (fun priceNode priceTitleNode =>
           if negb (isHigherInDom n priceTitleNode)
           then Some priceTitleNode else priceNode) l acc = Some h /\
      startLe h n /\ forall h', In h' l2 -> ~ startLe h' n).
Proof.
  induction l as [|x l IH] using rev_ind.
  - left. split; [reflexivity | intros h []].
  - rewrite fold_left_app. cbn [fold_left].
    destruct (isHigherInDom n x) eqn:E; cbn [negb]; unfold isHigherInDom in E.
    + apply Z.ltb_lt in E.
      destruct IH as [[Hacc Hnone]|[l1 [h [l2 [Hl [Hf [Hle Hafter]]]]]]].
      * left. split; [exact Hacc|]. intros h Hh.
        apply in_app_or in Hh. destruct Hh as [Hh|[<-|[]]]; [now apply Hnone|].
        unfold startLe. lia.
      * right. exists l1, h, (l2 ++ [x])%list. split.
        { rewrite Hl, <- app_assoc. reflexivity. }
        split; [exact Hf|]. split; [exact Hle|]. intros h' Hh'.
        apply in_app_or in Hh'.
        destruct Hh' as [Hh'|[<-|[]]]; [now apply Hafter|].
        unfold startLe. lia.
    + apply Z.ltb_ge in E. right. exists l, x, [].
      split; [reflexivity|]. split; [reflexivity|]. split; [exact E|].
      intros h' [].
Qed.

Lemma sorted_before (l1 l2 : list node) (h : node) :
  StronglySorted startLe (l1 ++ h :: l2) ->
  forall h', In h' l1 -> startLe h' h.
Proof.
  induction l1 as [|x l1 IH]; intros Hs h' Hh'; [destruct Hh'|].
  simpl in Hs. inversion Hs as [|? ? Hl Hx]; subst.
  destruct Hh' as [<-|Hh'].
  - rewrite Forall_forall in Hx. apply Hx, in_or_app. right. now left.
  - now apply IH.
Qed.

(** C1 (amended).  For a non-empty list of heading text nodes,
    [extractReviewPrice] maps the text of the last heading, in the order
    of the list, that starts at or before the link; when the list is in
    ascending order of start position, that heading is the nearest one
    before the link, the one with the largest start position not after
    the link's.  When every heading starts after the link, the first
    heading of the list is used.  With two headings in ascending order,
    every link at or after the second one gets the second heading's price
    range. *)
Theorem extractReviewPrice_nearest_preceding (n : node)
    (priceTitles : list node) :
  priceTitles <> [] ->
  (forall h, In h priceTitles -> exists i d, h = Text i d) ->
  exists h d,
    priceNodeFor n priceTitles = Some h /\ data h = Some d /\
    extractReviewPrice n priceTitles = Return (mapPriceRange d) /\
    In h priceTitles /\
    ((exists h', In h' priceTitles /\ startLe h' n) ->
     exists before after,
       priceTitles = (before ++ h :: after)%list /\ startLe h n /\
       forall h', In h' after -> ~ startLe h' n) /\
    (StronglySorted startLe priceTitles ->
     (exists h', In h' priceTitles /\ startLe h' n) ->
     NearestPreceding n priceTitles h) /\
    ((forall h', In h' priceTitles -> ~ startLe h' n) ->
     Some h = hd_error priceTitles) /\
    (forall i1 d1 i2 d2,
        (i1 <= i2)%Z -> (i2 <= startIndex n)%Z ->
        extractReviewPrice n [Text i1 d1; Text i2 d2]
          = Return (mapPriceRange d2)).
Proof.
  intros Hne Htext.
  destruct priceTitles as [|first others]; [congruence|]. clear Hne.
  assert (Hcases := priceNode_step_last n (first :: others) (Some first)).
  unfold extractReviewPrice, priceNodeFor.
  cbn [hd_error].
  set (chosen := fold_left _ (first :: others) (Some first)) in *.
  assert (Hscenario : forall i1 d1 i2 d2,
    (i1 <= i2)%Z -> (i2 <= startIndex n)%Z ->
    match fold_left
            (fun priceNode priceTitleNode =>
               if negb (isHigherInDom n priceTitleNode)
               then Some priceTitleNode else priceNode)
            [Text i1 d1; Text i2 d2] (Some (Text i1 d1)) with
    | Some priceNode =>
        match data priceNode with
        | Some text => Return (mapPriceRange text)
        | None => Throw "TypeError: Cannot read properties of undefined"
        end
    | None => Throw "TypeError: Cannot read properties of undefined"
    end = Return (mapPriceRange d2)).
  { intros i1 d1 i2 d2 H12 H2n. simpl. unfold isHigherInDom. simpl.
    destruct (startIndex n <? i2)%Z eqn:E2; [apply Z.ltb_lt in E2; lia|].
    reflexivity. }
  destruct Hcases as [[Hacc Hnone]|[l1 [h [l2 [Hl [Hf [Hle Hafter]]]]]]].
  - destruct (Htext first (or_introl eq_refl)) as [i [d ->]].
    exists (Text i d), d. rewrite Hacc.
    split; [reflexivity|]. split; [reflexivity|]. split; [reflexivity|].
    split; [now left|]. split.
    { intros [h' [Hh' Hle]]. exfalso. exact (Hnone h' Hh' Hle). }
    split.
    { intros _ [h' [Hh' Hle]]. exfalso. exact (Hnone h' Hh' Hle). }
    split; [reflexivity | exact Hscenario].
  - assert (Hin : In h (first :: others)).
    { rewrite Hl. apply in_or_app. right. now left. }
    destruct (Htext h Hin) as [i [d ->]].
    exists (Text i d), d. rewrite Hf.
    split; [reflexivity|]. split; [reflexivity|]. split; [reflexivity|].
    split; [exact Hin|]. split.
    { intros _. now exists l1, l2. }
    split.
    { intros Hsorted _. split; [exact Hin|]. split; [exact Hle|].
      intros h' Hh' Hh'le. rewrite Hl in Hh', Hsorted.
      apply in_app_or in Hh'. destruct Hh' as [Hh'|[<-|Hh']].
      - exact (sorted_before l1 l2 _ Hsorted h' Hh').
      - unfold startLe. lia.
      - exfalso. exact (Hafter h' Hh' Hh'le). }
    split; [|exact Hscenario].
    intros Hnone. exfalso. exact (Hnone _ Hin Hle).
Qed.

Lemma extractReviewPrice_nearest_preceding_witness :
  exists h d,
    data h = Some d /\
    extractReviewPrice (Tag 3000 "a") (collectPriceTitleNodes orderedPage)
      = Return (mapPriceRange d) /\
    NearestPreceding (Tag 3000 "a") (collectPriceTitleNodes orderedPage) h.
Proof.
  destruct (extractReviewPrice_nearest_preceding (Tag 3000 "a")
              (collectPriceTitleNodes orderedPage))
    as [h [d [_ [Hd [He [_ [_ [Hsorted _]]]]]]]].
  - discriminate.
  - intros h Hh. simpl in Hh.
    repeat (destruct Hh as [<-|Hh]; [eexists; eexists; reflexivity|]).
    destruct Hh.
  - exists h, d. split; [exact Hd|]. split; [exact He|]. apply Hsorted.
    + cbv. repeat constructor; discriminate.
    + exists (Text 100 ("Ukuleles " ++ pound ++ "0 - " ++ pound ++ "50")).
      split; [left; reflexivity | cbv; discriminate].
Defined.

(** The claim of C1 as the specification words it fails on a page whose
    sections are not in the order of the price table.  The collected
    list is not empty, the heading nearest before the link is the one of
    the cheapest section, yet the link gets the category of the other
    heading, the first of the page. *)
Lemma extractReviewPrice_reversed_page :
  collectPriceTitleNodes reversedPage <> [] /\
  NearestPreceding linkAfterBoth (collectPriceTitleNodes reversedPage)
    cheapestHeading /\
  data cheapestHeading
    = Some ("Ukuleles " ++ pound ++ "0 - " ++ pound ++ "50") /\
  mapPriceRange ("Ukuleles " ++ pound ++ "0 - " ++ pound ++ "50") = "<50" /\
  extractReviewPrice linkAfterBoth (collectPriceTitleNodes reversedPage)
    = Return "500+".
Proof.
  split; [discriminate|]. split.
  - split; [left; reflexivity|]. split; [cbv; discriminate|].
    intros h' Hh' _. simpl in Hh'.
    destruct Hh' as [<-|[<-|[]]]; cbv; discriminate.
  - repeat split.
Qed.

(** ** Review dates *)





Lemma trimStart_white (ws r : string) :
  allChars isWhiteSpace ws = true -> trimStart (ws ++ r) = trimStart r.
Proof.
  induction ws as [|c ws IH]; simpl; [reflexivity|].
  intros H. apply andb_true_iff in H. destruct H as [-> H]. now apply IH.
Qed.




Lemma firstMatch_unfold {A : Type} (p : string -> option A) (s : string) :
  firstMatch p s =
  match p s with
  | Some m => Some m
  | None =>
      match s with
      | EmptyString => None
      | String _ s' => firstMatch p s'
      end
  end.
Proof. destruct s; reflexivity. Qed.














(** ** The brand catalog *)

Lemma insertSorted_perm (x : string) (l : list string) :
  Permutation (insertSorted x l) (x :: l).
Proof.
  induction l as [|y l IH]; simpl; [constructor; constructor|].
  destruct (String.leb x y); [apply Permutation_refl|].
  eapply perm_trans; [apply perm_skip, IH | apply perm_swap].
Qed.

Lemma sort_perm (l : list string) : Permutation (sort l) l.
Proof.
  induction l as [|x l IH]; simpl; [constructor|].
  eapply perm_trans; [apply insertSorted_perm | apply perm_skip, IH].
Qed.

Lemma sort_In (l : list string) (x : string) : In x (sort l) <-> In x l.
Proof.
  split; apply Permutation_in;
    [apply sort_perm | apply Permutation_sym, sort_perm].
Qed.

Lemma sort_NoDup (l : list string) : NoDup l -> NoDup (sort l).
Proof.
  apply Permutation_NoDup, Permutation_sym, sort_perm.
Qed.

Lemma insertSorted_sorted (x : string) (l : list string) :
  Sorted codeUnitLe l -> Sorted codeUnitLe (insertSorted x l).
Proof.
  induction l as [|y l IH]; intros Hs; simpl.
  - repeat constructor.
  - destruct (String.leb x y) eqn:E.
    + constructor; [exact Hs | constructor; exact E].
    + inversion Hs as [|? ? Hl Hhd]; subst.
      constructor; [apply IH, Hl|].
      assert (Hyx : codeUnitLe y x).
      { destruct (String.leb_total x y) as [H|H]; [congruence | exact H]. }
      destruct l as [|z l]; simpl.
      * constructor. exact Hyx.
      * destruct (String.leb x z); constructor; [exact Hyx|].
        now inversion Hhd.
Qed.

Lemma sort_sorted (l : list string) : Sorted codeUnitLe (sort l).
Proof.
  induction l as [|x l IH]; simpl;
    [constructor | apply insertSorted_sorted, IH].
Qed.

Lemma upperChar_not_empty (c : ascii) : upperChar c <> "".
Proof.
  unfold upperChar.
  repeat match goal with
         | |- context [if ?b then _ else _] => destruct b
         end; discriminate.
Qed.

Lemma toUpperCase_empty (s : string) : toUpperCase s = "" -> s = "".
Proof.
  destruct s as [|c s]; [reflexivity|]. simpl. intros H.
  destruct (upperChar c) eqn:E; [now apply upperChar_not_empty in E|].
  discriminate.
Qed.

Lemma tagCloud_fold_In (linkTexts acc : list string) (b : string) :
  In b (fold_left
          (fun brands linkText =>
             let brandName := trim linkText in
             if String.eqb brandName "" then brands
             else add brands (toUpperCase brandName))
          linkTexts acc)
  <-> In b acc \/
      exists t, In t linkTexts /\ trim t <> "" /\ b = toUpperCase (trim t).
Proof.
  revert acc. induction linkTexts as [|t l IH]; intros acc; simpl.
  - split; [now left | intros [H|[t [[] _]]]; exact H].
  - rewrite IH. destruct (String.eqb_spec (trim t) "") as [E|E].
    + split.
      * intros [H|[t' [Ht' H]]]; [now left|]. right. exists t'. tauto.
      * intros [H|[t' [[Ht'|Ht'] [Hne Hb]]]]; [now left | subst; contradiction|].
        right. now exists t'.
    + rewrite add_In. split.
      * intros [[H|H]|[t' [Ht' H]]]; [now left | |].
        -- right. exists t. tauto.
        -- right. exists t'. tauto.
      * intros [H|[t' [[Ht'|Ht'] [Hne Hb]]]]; [tauto | subst; tauto|].
        right. now exists t'.
Qed.

Lemma tagCloud_fold_NoDup (linkTexts acc : list string) :
  NoDup acc ->
  NoDup (fold_left
           (fun brands linkText =>
              let brandName := trim linkText in
              if String.eqb brandName "" then brands
              else add brands (toUpperCase brandName))
           linkTexts acc).
Proof.
  revert acc. induction linkTexts as [|t l IH]; intros acc H; simpl.
  - exact H.
  - apply IH. destruct (String.eqb (trim t) ""); [exact H|].
    now apply add_NoDup.
Qed.

Lemma extractBrandsFromTagCloud_In (linkTexts : list string) (b : string) :
  In b (extractBrandsFromTagCloud linkTexts) <->
  exists t, In t linkTexts /\ trim t <> "" /\ b = toUpperCase (trim t).
Proof.
  unfold extractBrandsFromTagCloud.
  rewrite sort_In, tagCloud_fold_In. simpl. tauto.
Qed.

Lemma extractBrandsFromTagCloud_no_empty (linkTexts : list string) :
  ~ In "" (extractBrandsFromTagCloud linkTexts).
Proof.
  intros H. apply extractBrandsFromTagCloud_In in H.
  destruct H as [t [_ [Hne Hb]]].
  symmetry in Hb. apply toUpperCase_empty in Hb. contradiction.
Qed.

(** X1.  The brand catalog read from the tag cloud is in ascending
    code-unit order and free of duplicates, and its brands are exactly
    the upper-cased trimmed texts of the links whose trimmed text is not
    empty; the empty string is never a brand. *)
Theorem extractBrandsFromTagCloud_catalog (linkTexts : list string) :
  Sorted codeUnitLe (extractBrandsFromTagCloud linkTexts) /\
  NoDup (extractBrandsFromTagCloud linkTexts) /\
  (forall b,
      In b (extractBrandsFromTagCloud linkTexts) <->
      exists t, In t linkTexts /\ trim t <> "" /\ b = toUpperCase (trim t)) /\
  ~ In "" (extractBrandsFromTagCloud linkTexts).
Proof.
  split; [apply sort_sorted|].
  split; [apply sort_NoDup, tagCloud_fold_NoDup; constructor|].
  split; [apply extractBrandsFromTagCloud_In|].
  apply extractBrandsFromTagCloud_no_empty.
Qed.

Lemma includes_empty (s : string) : includes s "" = true.
Proof. destruct s; reflexivity. Qed.

Lemma firstIncluded_In (t : string) (l : list string) (b : string) :
  firstIncluded t l = Some b -> In b l.
Proof.
  induction l as [|c l IH]; simpl; [discriminate|].
  destruct (includes t c).
  - intros H. inversion H. now left.
  - intros H. right. now apply IH.
Qed.

(** X2.  With a catalog that does not hold the empty string, such as
    every catalog read from the tag cloud, [findBestMatchingBrand] never
    returns the empty string.  With a catalog that does hold it, the
    first-word fallback is never reached: the result is always a catalog
    entry. *)
Theorem findBestMatchingBrand_not_empty (title : string)
    (brandList : list string) :
  (~ In "" brandList -> findBestMatchingBrand title brandList <> "") /\
  (In "" brandList -> In (findBestMatchingBrand title brandList) brandList) /\
  (forall linkTexts,
      findBestMatchingBrand title (extractBrandsFromTagCloud linkTexts) <> "").
Proof.
  assert (Hfirst : forall catalog,
    ~ In "" catalog -> findBestMatchingBrand title catalog <> "").
  { intros catalog Hno. unfold findBestMatchingBrand.
    destruct (firstIncluded (toUpperCase title) (sortByLengthDesc catalog))
      as [b|] eqn:E.
    - apply firstIncluded_In in E. rewrite sortByLengthDesc_In in E.
      intros ->. contradiction.
    - destruct (String.eqb_spec (splitWsHead title) "") as [H|H];
        [discriminate|].
      intros Hu. apply toUpperCase_empty in Hu. contradiction. }
  split; [apply Hfirst|]. split.
  - intros Hin. unfold findBestMatchingBrand.
    destruct (firstIncluded (toUpperCase title) (sortByLengthDesc brandList))
      as [b|] eqn:E.
    + apply firstIncluded_In in E. now rewrite sortByLengthDesc_In in E.
    + rewrite firstIncluded_None in E.
      pose proof (E "" (proj2 (sortByLengthDesc_In _ _) Hin)) as Hc.
      rewrite includes_empty in Hc. discriminate.
  - intros linkTexts. apply Hfirst, extractBrandsFromTagCloud_no_empty.
Qed.

Lemma findBestMatchingBrand_not_empty_witness :
  findBestMatchingBrand " kala ka-15s" ["MARTIN"; "OHANA"] <> "".
Proof.
  apply (proj1 (findBestMatchingBrand_not_empty " kala ka-15s"
                  ["MARTIN"; "OHANA"])).
  intros [H|[H|[]]]; discriminate.
Defined.

(** ** Metadata: what is accepted and what is stored *)

Lemma forallb_has_newSet (allowed xs : list string) :
  forallb (fun x => has allowed x) (newSet xs) = true <->
  forall x, In x xs -> In x allowed.
Proof.
  rewrite forallb_forall. split.
  - intros H x Hx. apply has_spec, H, newSet_In, Hx.
  - intros H x Hx. apply has_spec, H. now apply newSet_In.
Qed.

Lemma lowerCased_sizes (sz : string) :
  In sz (map toLowerCase
           ["Soprano"; "Concert"; "Tenor"; "Baritone"; "Sopranino"; "Other"])
  <-> In sz sizeCategories.
Proof. simpl. intuition. Qed.

Lemma saveBrandMetadata_cases (now : string) (reviews : list Review)
    (fs : FileSystem) :
  let metadata :=
    {| mdLastUpdated := now;
       mdBrands := sort (newSet (map brand reviews));
       mdSizes := ["Soprano"; "Concert"; "Tenor"; "Baritone"; "Sopranino";
                   "Other"];
       mdPriceRanges := acceptedPriceRanges |} in
  ((exists r, In r reviews /\ ~ In (priceRange r) acceptedPriceRanges) /\
   saveBrandMetadata now reviews fs
     = (Throw "Unexpected price ranges found in reviews", fs)) \/
  ((forall r, In r reviews -> In (priceRange r) acceptedPriceRanges) /\
   (exists r, In r reviews /\ ~ In (size r) sizeCategories) /\
   saveBrandMetadata now reviews fs
     = (Throw "Unexpected sizes found in reviews", fs)) \/
  ((forall r, In r reviews -> In (priceRange r) acceptedPriceRanges) /\
   (forall r, In r reviews -> In (size r) sizeCategories) /\
   saveBrandMetadata now reviews fs
     = (Return metadata,
        {| otherData := Some metadata;
           ukuleleReviews := ukuleleReviews fs;
           written := (written fs ++ ["other-data.json"])%list |})).
Proof.
  intros metadata. unfold saveBrandMetadata. cbn [mdPriceRanges mdSizes].
  fold acceptedPriceRanges.
  destruct (forallb (fun pr => has acceptedPriceRanges pr)
              (newSet (map priceRange reviews))) eqn:Ep.
  - rewrite forallb_has_newSet in Ep.
    assert (Hprice : forall r, In r reviews ->
                               In (priceRange r) acceptedPriceRanges).
    { intros r Hr. apply Ep, in_map, Hr. }
    right. cbn [negb].
    destruct (forallb _ (newSet (map size reviews))) eqn:Es.
    + rewrite forallb_has_newSet in Es. right.
      split; [exact Hprice|]. split; [|reflexivity].
      intros r Hr. apply lowerCased_sizes, Es, in_map, Hr.
    + left. split; [exact Hprice|]. split; [|reflexivity].
      apply not_true_iff_false in Es. rewrite forallb_has_newSet in Es.
      destruct (existsb (fun r => negb (has sizeCategories (size r))) reviews)
        eqn:Ex.
      * apply existsb_exists in Ex. destruct Ex as [r [Hr Hs]].
        exists r. split; [exact Hr|].
        apply negb_true_iff in Hs. now apply has_false in Hs.
      * exfalso. apply Es. intros x Hx. apply in_map_iff in Hx.
        destruct Hx as [r [<- Hr]]. apply lowerCased_sizes.
        destruct (has sizeCategories (size r)) eqn:Eh;
          [now apply has_spec in Eh|].
        assert (existsb (fun r => negb (has sizeCategories (size r))) reviews
                = true) as Hc.
        { apply existsb_exists. exists r. now rewrite Eh. }
        congruence.
  - left. split; [|reflexivity].
    apply not_true_iff_false in Ep. rewrite forallb_has_newSet in Ep.
    destruct (existsb (fun r => negb (has acceptedPriceRanges (priceRange r)))
                reviews) eqn:Ex.
    + apply existsb_exists in Ex. destruct Ex as [r [Hr Hs]].
      exists r. split; [exact Hr|].
      apply negb_true_iff in Hs. now apply has_false in Hs.
    + exfalso. apply Ep. intros x Hx. apply in_map_iff in Hx.
      destruct Hx as [r [<- Hr]].
      destruct (has acceptedPriceRanges (priceRange r)) eqn:Eh;
        [now apply has_spec in Eh|].
      assert (existsb
                (fun r => negb (has acceptedPriceRanges (priceRange r)))
                reviews = true) as Hc.
      { apply existsb_exists. exists r. now rewrite Eh. }
      congruence.
Qed.

(** X3.  When every price range is accepted but some record has a size
    outside the six categories, [saveBrandMetadata] throws "Unexpected
    sizes found in reviews" and leaves the output directory as it was. *)
Theorem saveBrandMetadata_unexpected_size (now : string)
    (reviews : list Review) (fs : FileSystem) :
  (forall r, In r reviews -> In (priceRange r) acceptedPriceRanges) ->
  (exists r, In r reviews /\ ~ In (size r) sizeCategories) ->
  saveBrandMetadata now reviews fs
    = (Throw "Unexpected sizes found in reviews", fs).
Proof.
  intros Hprice [r [Hr Hsize]].
  destruct (saveBrandMetadata_cases now reviews fs)
    as [[[r' [Hr' Hbad]] _]|[[_ [_ H]]|[_ [Hsizes _]]]].
  - exfalso. exact (Hbad (Hprice r' Hr')).
  - exact H.
  - exfalso. exact (Hsize (Hsizes r Hr)).
Qed.

Lemma saveBrandMetadata_unexpected_size_witness :
  saveBrandMetadata "2026-01-01T00:00:00.000Z"
    [review "https://www.gotaukulele.com/a.html" "100-200"; bassReview]
    emptyDir
    = (Throw "Unexpected sizes found in reviews", emptyDir).
Proof.
  apply saveBrandMetadata_unexpected_size.
  - intros r [<-|[<-|[]]]; pick_member.
  - exists bassReview. split; [right; left; reflexivity|].
    simpl. intuition discriminate.
Defined.

(** X4.  [saveBrandMetadata] returns exactly when every record has one of
    the five accepted price ranges and one of the six sizes.  It then
    writes the metadata file and nothing else, and what it writes is what
    it returns: the given time stamp, the two fixed lists, and the brands
    of the reviews in ascending code-unit order without duplicates. *)
Theorem saveBrandMetadata_accepts (now : string) (reviews : list Review)
    (fs : FileSystem) :
  ((exists metadata fs',
       saveBrandMetadata now reviews fs = (Return metadata, fs')) <->
   (forall r, In r reviews ->
              In (priceRange r) acceptedPriceRanges /\
              In (size r) sizeCategories)) /\
  (forall metadata fs',
      saveBrandMetadata now reviews fs = (Return metadata, fs') ->
      fs' = {| otherData := Some metadata;
               ukuleleReviews := ukuleleReviews fs;
               written := (written fs ++ ["other-data.json"])%list |} /\
      mdLastUpdated metadata = now /\
      mdPriceRanges metadata = acceptedPriceRanges /\
      mdSizes metadata
        = ["Soprano"; "Concert"; "Tenor"; "Baritone"; "Sopranino"; "Other"] /\
      Sorted codeUnitLe (mdBrands metadata) /\
      NoDup (mdBrands metadata) /\
      forall b, In b (mdBrands metadata) <->
                exists r, In r reviews /\ brand r = b).
Proof.
  destruct (saveBrandMetadata_cases now reviews fs)
    as [[[r [Hr Hbad]] H]|[[Hprice [[r [Hr Hbad]] H]]|[Hprice [Hsize H]]]];
    rewrite H.
  - split.
    + split; [intros [m [fs' E]]; discriminate|].
      intros Hall. exfalso. exact (Hbad (proj1 (Hall r Hr))).
    + intros m fs' E. discriminate.
  - split.
    + split; [intros [m [fs' E]]; discriminate|].
      intros Hall. exfalso. exact (Hbad (proj2 (Hall r Hr))).
    + intros m fs' E. discriminate.
  - split.
    + split; [intros _ r Hr; split; auto|]. intros _. eauto.
    + intros m fs' E. inversion E; subst; clear E. cbn.
      split; [reflexivity|]. split; [reflexivity|]. split; [reflexivity|].
      split; [reflexivity|]. split; [apply sort_sorted|].
      split; [apply sort_NoDup, newSet_NoDup|].
      intros b. rewrite sort_In, newSet_In, in_map_iff.
      split; intros [r Hr]; exists r; tauto.
Qed.

Lemma saveBrandMetadata_accepts_witness :
  exists metadata fs',
    saveBrandMetadata "2026-01-01T00:00:00.000Z"
      [reviewOf "OHANA" "https://www.gotaukulele.com/a.html";
       reviewOf "KALA" "https://www.gotaukulele.com/b.html";
       reviewOf "OHANA" "https://www.gotaukulele.com/c.html"] emptyDir
    = (Return metadata, fs').
Proof.
  apply (proj2 (proj1 (saveBrandMetadata_accepts "2026-01-01T00:00:00.000Z"
                         _ emptyDir))).
  intros r [<-|[<-|[<-|[]]]]; split; pick_member.
Defined.




Lemma filter_has_without (excluded xs : list string) :
  filter (fun x => negb (has excluded x)) xs = without xs excluded.
Proof.
  unfold without. apply filter_ext. intros x.
  destruct (in_dec string_dec x excluded) as [Hin|Hout].
  - apply negb_false_iff, has_spec, Hin.
  - apply negb_true_iff, has_false, Hout.
Qed.

(** X6.  [checkForNewBrands] never changes the output directory.  With no
    metadata file every current brand is reported as new; with one, the
    list reported is the list of current brands with those of the stored
    list taken out: the same brands in the same order, each as often as
    the current list has it. *)
Theorem checkForNewBrands_reports (currentBrands : list string)
    (fs : FileSystem) :
  snd (checkForNewBrands currentBrands fs) = fs /\
  (otherData fs = None ->
   fst (checkForNewBrands currentBrands fs) = Return currentBrands) /\
  (forall existing,
      otherData fs = Some existing ->
      fst (checkForNewBrands currentBrands fs)
        = Return (without currentBrands (mdBrands existing)) /\
      (forall b, In b (without currentBrands (mdBrands existing)) <->
                 In b currentBrands /\ ~ In b (mdBrands existing)) /\
      ((forall b, In b currentBrands -> In b (mdBrands existing)) ->
       without currentBrands (mdBrands existing) = [])).
Proof.
  unfold checkForNewBrands, bind, readOtherData, ret.
  destruct (otherData fs) as [md|]; cbn [fst snd].
  - split; [reflexivity|]. split; [discriminate|].
    intros existing H. inversion H; subst. rewrite filter_has_without.
    split; [reflexivity|]. split.
    + intros b. unfold without. rewrite filter_In.
      destruct (in_dec string_dec b (mdBrands existing)); split;
        intros [Hb H']; try discriminate; try contradiction; now split.
    + intros Hall. apply filter_nothing. intros b Hb.
      destruct (in_dec string_dec b (mdBrands existing)) as [|Hout];
        [reflexivity | exfalso; exact (Hout (Hall b Hb))].
  - split; [reflexivity|]. split; [reflexivity | discriminate].
Qed.

Lemma checkForNewBrands_reports_witness :
  fst (checkForNewBrands ["OHANA"; "MARTIN"; "KALA"; "FLIGHT"] savedDir)
    = Return ["MARTIN"; "FLIGHT"].
Proof.
  exact (proj1 (proj2 (proj2
    (checkForNewBrands_reports ["OHANA"; "MARTIN"; "KALA"; "FLIGHT"]
       savedDir)) _ eq_refl)).
Defined.

(** X7.  After [saveBrandMetadata] has accepted a review list, a later
    check of another list reports exactly the brands of the later list
    that no review of the saved list has; checking the saved list itself
    reports no new brand. *)
Theorem checkForNewBrands_after_save (now : string)
    (reviews later : list Review) (fs fs' : FileSystem)
    (metadata : Metadata) :
  saveBrandMetadata now reviews fs = (Return metadata, fs') ->
  exists newBrands,
    checkForNewBrands (sort (newSet (map brand later))) fs'
      = (Return newBrands, fs') /\
    (forall b, In b newBrands <->
               (exists r, In r later /\ brand r = b) /\
               ~ exists r, In r reviews /\ brand r = b) /\
    (later = reviews -> newBrands = []).
Proof.
  intros Hsave.
  destruct (saveBrandMetadata_cases now reviews fs)
    as [[_ H]|[[_ [_ H]]|[_ [_ H]]]]; rewrite H in Hsave;
    try discriminate.
  inversion Hsave; subst; clear Hsave H.
  unfold checkForNewBrands, bind, readOtherData, ret.
  cbn -[has sort newSet].
  eexists. split; [reflexivity|].
  assert (Hbrands : forall l b,
    In b (sort (newSet (map brand l))) <-> exists r, In r l /\ brand r = b).
  { intros l b. rewrite sort_In, newSet_In, in_map_iff.
    split; intros [r Hr]; exists r; tauto. }
  split.
  - intros b. rewrite filter_In, negb_true_iff, has_false, !Hbrands.
    reflexivity.
  - intros ->. apply filter_nothing. intros b Hb.
    apply negb_false_iff, has_spec, Hb.
Qed.

Lemma checkForNewBrands_after_save_witness :
  exists newBrands,
    checkForNewBrands
      (sort (newSet (map brand
         [reviewOf "MARTIN" "https://www.gotaukulele.com/m.html";
          reviewOf "KALA" "https://www.gotaukulele.com/b.html"])))
      (snd (saveBrandMetadata "2026-01-01T00:00:00.000Z"
              [reviewOf "OHANA" "https://www.gotaukulele.com/a.html";
               reviewOf "KALA" "https://www.gotaukulele.com/b.html"]
              emptyDir))
    = (Return newBrands,
       snd (saveBrandMetadata "2026-01-01T00:00:00.000Z"
              [reviewOf "OHANA" "https://www.gotaukulele.com/a.html";
               reviewOf "KALA" "https://www.gotaukulele.com/b.html"]
              emptyDir)).
Proof.
  destruct (checkForNewBrands_after_save "2026-01-01T00:00:00.000Z"
              [reviewOf "OHANA" "https://www.gotaukulele.com/a.html";
               reviewOf "KALA" "https://www.gotaukulele.com/b.html"]
              [reviewOf "MARTIN" "https://www.gotaukulele.com/m.html";
               reviewOf "KALA" "https://www.gotaukulele.com/b.html"]
              emptyDir _ _ eq_refl) as [newBrands [H _]].
  exists newBrands. exact H.
Defined.

(** ** The driver *)

Lemma diff_self (now : string) (reviews : list Review) :
  Scraper.changesNew (Scraper.generateDiffReport now (Some reviews) reviews)
    = [] /\
  Scraper.changesRemoved
    (Scraper.generateDiffReport now (Some reviews) reviews) = [].
Proof.
  cbn -[newSet has]. split; apply filter_nothing.
  - intros r Hr. rewrite negb_false_iff, has_spec, newSet_In.
    apply in_map, Hr.
  - intros u Hu. rewrite negb_false_iff. now apply has_spec.
Qed.

Lemma scrape_accepted (now : string) (reviews : list Review)
    (fs : FileSystem) :
  reviews <> [] ->
  (forall r, In r reviews ->
             In (priceRange r) acceptedPriceRanges /\
             In (size r) sizeCategories) ->
  let metadata :=
    {| mdLastUpdated := now;
       mdBrands := sort (newSet (map brand reviews));
       mdSizes := ["Soprano"; "Concert"; "Tenor"; "Baritone"; "Sopranino";
                   "Other"];
       mdPriceRanges := acceptedPriceRanges |} in
  let output :=
    {| outData := reviews;
       outSourceUrl := sourceUrl;
       outScrapedAt := now;
       outTotal := List.length reviews;
       outDiffReport :=
         Scraper.generateDiffReport now
           (option_map outData (ukuleleReviews fs)) reviews |} in
  scrape now (Return reviews) fs
    = (Return output,
       {| otherData := Some metadata;
          ukuleleReviews := Some output;
          written :=
            (written fs ++ ["other-data.json"; "ukulele-reviews.json"])%list
       |}).
Proof.
  intros Hne Hvalid metadata output.
  unfold scrape, extractAllReviews. unfold bind at 1 2 3.
  destruct (checkForNewBrands_reads_only
              (sort (newSet (map brand reviews))) fs) as [Hfs [nb Hnb]].
  destruct (checkForNewBrands _ fs) as [o fs0].
  simpl in Hfs, Hnb. subst.
  destruct (saveBrandMetadata_cases now reviews fs)
    as [[[r [Hr Hbad]] _]|[[_ [[r [Hr Hbad]] _]]|[_ [_ H]]]].
  - exfalso. exact (Hbad (proj1 (Hvalid r Hr))).
  - exfalso. exact (Hbad (proj2 (Hvalid r Hr))).
  - rewrite H. unfold ret at 1.
    destruct reviews as [|r0 rest]; [congruence|].
    cbn [List.length Nat.eqb].
    unfold bind, readUkuleleReviews, writeUkuleleReviews, ret. cbn.
    subst output metadata. rewrite <- app_assoc.
    destruct (ukuleleReviews fs); reflexivity.
Qed.

Lemma scrape_cases (now : string) (extracted : outcome (list Review))
    (fs : FileSystem) :
  (exists e, extracted = Throw e /\ scrape now extracted fs = (Throw e, fs)) \/
  (extracted = Return [] /\
   exists metadata,
     scrape now extracted fs
       = (Throw "No reviews found",
          {| otherData := Some metadata;
             ukuleleReviews := ukuleleReviews fs;
             written := (written fs ++ ["other-data.json"])%list |})) \/
  (exists reviews e,
      extracted = Return reviews /\ reviews <> [] /\
      ~ (forall r, In r reviews ->
                   In (priceRange r) acceptedPriceRanges /\
                   In (size r) sizeCategories) /\
      scrape now extracted fs = (Throw e, fs)) \/
  (exists reviews,
      extracted = Return reviews /\ reviews <> [] /\
      (forall r, In r reviews ->
                 In (priceRange r) acceptedPriceRanges /\
                 In (size r) sizeCategories) /\
      scrape now extracted fs
        = (Return
             {| outData := reviews;
                outSourceUrl := sourceUrl;
                outScrapedAt := now;
                outTotal := List.length reviews;
                outDiffReport :=
                  Scraper.generateDiffReport now
                    (option_map outData (ukuleleReviews fs)) reviews |},
           {| otherData :=
                Some {| mdLastUpdated := now;
                        mdBrands := sort (newSet (map brand reviews));
                        mdSizes := ["Soprano"; "Concert"; "Tenor"; "Baritone";
                                    "Sopranino"; "Other"];
                        mdPriceRanges := acceptedPriceRanges |};
              ukuleleReviews :=
                Some {| outData := reviews;
                        outSourceUrl := sourceUrl;
                        outScrapedAt := now;
                        outTotal := List.length reviews;
                        outDiffReport :=
                          Scraper.generateDiffReport now
                            (option_map outData (ukuleleReviews fs)) reviews |};
              written :=
                (written fs ++ ["other-data.json"; "ukulele-reviews.json"])%list
           |})).
Proof.
  destruct extracted as [reviews|e].
  2:{ left. exists e. split; reflexivity. }
  right. destruct reviews as [|r0 rest].
  { left. split; [reflexivity|]. eexists.
    unfold scrape, extractAllReviews, bind, checkForNewBrands, readOtherData.
    unfold bind. destruct (otherData fs); reflexivity. }
  right.
  destruct (saveBrandMetadata_cases now (r0 :: rest) fs)
    as [[[r [Hr Hbad]] H]|[[Hprice [[r [Hr Hbad]] H]]|[Hprice [Hsize H]]]].
  - left. exists (r0 :: rest), "Unexpected price ranges found in reviews".
    split; [reflexivity|]. split; [discriminate|]. split.
    + intros Hall. exact (Hbad (proj1 (Hall r Hr))).
    + unfold scrape, extractAllReviews. unfold bind at 1 2 3.
      destruct (checkForNewBrands_reads_only
                  (sort (newSet (map brand (r0 :: rest)))) fs)
        as [Hfs [nb Hnb]].
      destruct (checkForNewBrands _ fs) as [o fs0].
      simpl in Hfs, Hnb. subst. now rewrite H.
  - left. exists (r0 :: rest), "Unexpected sizes found in reviews".
    split; [reflexivity|]. split; [discriminate|]. split.
    + intros Hall. exact (Hbad (proj2 (Hall r Hr))).
    + unfold scrape, extractAllReviews. unfold bind at 1 2 3.
      destruct (checkForNewBrands_reads_only
                  (sort (newSet (map brand (r0 :: rest)))) fs)
        as [Hfs [nb Hnb]].
      destruct (checkForNewBrands _ fs) as [o fs0].
      simpl in Hfs, Hnb. subst. now rewrite H.
  - right. exists (r0 :: rest). split; [reflexivity|].
    split; [discriminate|].
    assert (Hvalid : forall r, In r (r0 :: rest) ->
                               In (priceRange r) acceptedPriceRanges /\
                               In (size r) sizeCategories).
    { intros r Hr. split; auto. }
    split; [exact Hvalid|].
    apply (scrape_accepted now (r0 :: rest) fs); [discriminate | exact Hvalid].
Qed.

(** X8.  What a run leaves behind.  When [scrape] returns, extraction
    gave at least one review, the metadata file and then the reviews
    file have been written, and the reviews file holds exactly the
    returned output, whose data are the extracted reviews and whose total
    is their number.  When [scrape] throws, the reviews file is as it
    was, and the whole output directory is as it was unless extraction
    gave no review at all, in which case the metadata file alone has been
    written. *)
Theorem scrape_outcomes (now : string) (extracted : outcome (list Review))
    (fs : FileSystem) :
  (forall output fs',
      scrape now extracted fs = (Return output, fs') ->
      extracted = Return (outData output) /\ outData output <> [] /\
      outTotal output = List.length (outData output) /\
      ukuleleReviews fs' = Some output /\
      written fs'
        = (written fs ++ ["other-data.json"; "ukulele-reviews.json"])%list) /\
  (forall e fs',
      scrape now extracted fs = (Throw e, fs') ->
      ukuleleReviews fs' = ukuleleReviews fs /\
      (fs' = fs \/
       (extracted = Return [] /\ e = "No reviews found" /\
        written fs' = (written fs ++ ["other-data.json"])%list))).
Proof.
  destruct (scrape_cases now extracted fs)
    as [[e [He H]]|[[He [md H]]|[[reviews [e [He [Hne [_ H]]]]]
        |[reviews [He [Hne [_ H]]]]]]]; rewrite H.
  - split; [intros o fs' E; discriminate|].
    intros e' fs' E. inversion E; subst. split; [reflexivity | now left].
  - split; [intros o fs' E; discriminate|].
    intros e' fs' E. inversion E; subst. split; [reflexivity|].
    right. repeat split.
  - split; [intros o fs' E; discriminate|].
    intros e' fs' E. inversion E; subst. split; [reflexivity | now left].
  - split; [|intros e' fs' E; discriminate].
    intros o fs' E. inversion E; subst; clear E. cbn.
    repeat split. exact Hne.
Qed.

Lemma scrape_outcomes_witness :
  ukuleleReviews
    (snd (scrape "2026-01-01T00:00:00.000Z"
            (Return [bassReview]) emptyDir))
  = ukuleleReviews emptyDir.
Proof.
  apply (proj2 (scrape_outcomes "2026-01-01T00:00:00.000Z"
                  (Return [bassReview]) emptyDir)
           "Unexpected sizes found in reviews").
  reflexivity.
Defined.

(** X9.  The previous data of a run are the data of the last successful
    run: after [scrape] has returned for a review list, a later run that
    is accepted reports its diff against that list.  In particular a
    second run over the same reviews reports nothing new and nothing
    removed, with a net change of zero. *)
Theorem scrape_rerun (now1 now2 : string) (reviews later : list Review)
    (fs fs1 : FileSystem) (output1 : Output) :
  scrape now1 (Return reviews) fs = (Return output1, fs1) ->
  later <> [] ->
  (forall r, In r later ->
             In (priceRange r) acceptedPriceRanges /\
             In (size r) sizeCategories) ->
  exists output2 fs2,
    scrape now2 (Return later) fs1 = (Return output2, fs2) /\
    outData output2 = later /\
    outDiffReport output2
      = Scraper.generateDiffReport now2 (Some reviews) later /\
    (later = reviews ->
     Scraper.changesNew (outDiffReport output2) = [] /\
     Scraper.changesRemoved (outDiffReport output2) = [] /\
     Scraper.netChange (outDiffReport output2) = 0%Z).
Proof.
  intros Hfirst Hne Hvalid.
  assert (Hprev : option_map outData (ukuleleReviews fs1) = Some reviews).
  { destruct (scrape_cases now1 (Return reviews) fs)
      as [[e [He H]]|[[He [md H]]|[[l [e [He [_ [_ H]]]]]
          |[l [He [_ [_ H]]]]]]]; rewrite H in Hfirst; try discriminate.
    inversion He; subst. inversion Hfirst; subst. reflexivity. }
  pose proof (scrape_accepted now2 later fs1 Hne Hvalid) as H.
  cbv zeta in H. rewrite Hprev in H.
  eexists. eexists. split; [exact H|]. cbn -[Scraper.generateDiffReport].
  split; [reflexivity|]. split; [reflexivity|].
  intros ->. destruct (diff_self now2 reviews) as [Hn Hr].
  split; [exact Hn|]. split; [exact Hr|]. cbn. lia.
Qed.

Lemma scrape_rerun_witness :
  exists output2 fs2,
    scrape "2026-01-02T00:00:00.000Z"
      (Return [reviewOf "KALA" "https://www.gotaukulele.com/b.html"])
      (snd (scrape "2026-01-01T00:00:00.000Z"
              (Return [reviewOf "KALA" "https://www.gotaukulele.com/b.html"])
              emptyDir))
    = (Return output2, fs2) /\
    Scraper.changesNew (outDiffReport output2) = [].
Proof.
  destruct (scrape_rerun "2026-01-01T00:00:00.000Z"
              "2026-01-02T00:00:00.000Z"
              [reviewOf "KALA" "https://www.gotaukulele.com/b.html"]
              [reviewOf "KALA" "https://www.gotaukulele.com/b.html"]
              emptyDir _ _ eq_refl)
    as [output2 [fs2 [H [_ [_ Hsame]]]]].
  - discriminate.
  - intros r [<-|[]]. split; pick_member.
  - exists output2, fs2. split; [exact H | apply Hsame; reflexivity].
Defined.

(** ** More on diff reports *)

Lemma filter_everything {A : Type} (p : A -> bool) (l : list A) :
  (forall x, In x l -> p x = true) -> filter p l = l.
Proof.
  induction l as [|a l IH]; intros H; simpl; [reflexivity|].
  rewrite (H a (or_introl eq_refl)). f_equal. apply IH.
  intros x Hx. apply H. now right.
Qed.

Lemma flat_map_nothing {A B : Type} (f : A -> list B) (l : list A) :
  (forall x, In x l -> f x = []) -> flat_map f l = [].
Proof.
  induction l as [|a l IH]; intros H; simpl; [reflexivity|].
  rewrite (H a (or_introl eq_refl)). apply IH.
  intros x Hx. apply H. now right.
Qed.

(** X10.  Both diff implementations treat a missing previous list exactly
    like an empty one: every current record is new, nothing is removed or
    updated, the previous total is zero and the net change is the number
    of current records. *)
Theorem diff_without_previous (now : string) (current : list Review) :
  Scraper.generateDiffReport now None current
    = Scraper.generateDiffReport now (Some []) current /\
  ChangeDetector.generateDiffReport now None current
    = ChangeDetector.generateDiffReport now (Some []) current /\
  Scraper.changesNew (Scraper.generateDiffReport now None current) = current /\
  Scraper.changesRemoved (Scraper.generateDiffReport now None current) = [] /\
  Scraper.netChange (Scraper.generateDiffReport now None current)
    = Z.of_nat (List.length current) /\
  ChangeDetector.changesNew
    (ChangeDetector.generateDiffReport now None current) = current /\
  ChangeDetector.changesRemoved
    (ChangeDetector.generateDiffReport now None current) = [] /\
  ChangeDetector.changesUpdated
    (ChangeDetector.generateDiffReport now None current) = [] /\
  ChangeDetector.netChange
    (ChangeDetector.generateDiffReport now None current)
    = Z.of_nat (List.length current).
Proof.
  split; [reflexivity|]. split.
  { cbn. rewrite filter_everything by reflexivity.
    now rewrite flat_map_nothing by reflexivity. }
  cbn. rewrite filter_everything by reflexivity.
  repeat split; lia.
Qed.

Lemma reviewEqb_spec (a b : Review) :
  ChangeDetector.reviewEqb a b = true <-> a = b.
Proof.
  destruct a as [s1 b1 m1 p1 u1 r1 d1], b as [s2 b2 m2 p2 u2 r2 d2].
  unfold ChangeDetector.reviewEqb. cbn.
  rewrite !andb_true_iff, !String.eqb_eq. split.
  - intros [[[[[[-> ->] ->] ->] ->] ->] Hd].
    destruct d1 as [x|], d2 as [y|]; try discriminate; [|reflexivity].
    apply String.eqb_eq in Hd. now subst.
  - intros H. inversion H; subst. repeat split.
    destruct d2 as [y|]; [apply String.eqb_refl | reflexivity].
Qed.

Lemma find_by_url (previous : list Review) (p : Review) (u : string) :
  NoDup (map url previous) -> In p previous -> url p = u ->
  find (fun q => String.eqb (url q) u) previous = Some p.
Proof.
  induction previous as [|q l IH]; intros Hnd Hin Hu; [destruct Hin|].
  simpl in *. inversion Hnd as [|? ? Hq Hl]; subst.
  destruct (String.eqb_spec (url q) (url p)) as [E|E].
  - destruct Hin as [->|Hin]; [reflexivity|].
    exfalso. apply Hq. rewrite E. apply in_map, Hin.
  - destruct Hin as [->|Hin]; [congruence|]. now apply IH.
Qed.

(** X11.  The change detector's updated entries.  Every entry pairs a
    current record with a previous record of the same URL that differs
    from it in some field, and such a current record is never reported
    as new.  When the previous URLs are distinct, every such pair is
    reported; comparing a list with distinct URLs against itself reports
    nothing new, updated or removed. *)
Theorem changeDetector_updated (now : string)
    (previous current : list Review) :
  let report :=
    ChangeDetector.generateDiffReport now (Some previous) current in
  (forall u,
      In u (ChangeDetector.changesUpdated report) ->
      In (ChangeDetector.updCurrent u) current /\
      In (ChangeDetector.updPrevious u) previous /\
      url (ChangeDetector.updPrevious u) = url (ChangeDetector.updCurrent u) /\
      ChangeDetector.updUrl u = url (ChangeDetector.updCurrent u) /\
      ChangeDetector.updPrevious u <> ChangeDetector.updCurrent u /\
      ~ In (ChangeDetector.updCurrent u) (ChangeDetector.changesNew report)) /\
  (NoDup (map url previous) ->
   forall p c,
     In p previous -> In c current -> url p = url c -> p <> c ->
     In {| ChangeDetector.updUrl := url c;
           ChangeDetector.updPrevious := p;
           ChangeDetector.updCurrent := c |}
        (ChangeDetector.changesUpdated report)) /\
  (NoDup (map url previous) -> current = previous ->
   ChangeDetector.changesNew report = [] /\
   ChangeDetector.changesUpdated report = [] /\
   ChangeDetector.changesRemoved report = []).
Proof.
  intros report. subst report. cbn -[ChangeDetector.arrayIncludes].
  split; [|split].
  - intros u Hu. apply in_flat_map in Hu. destruct Hu as [c [Hc Hu]].
    destruct (find _ previous) as [p|] eqn:Ef; [|destruct Hu].
    destruct (ChangeDetector.reviewEqb p c) eqn:Eq; simpl in Hu;
      [destruct Hu|].
    destruct Hu as [<-|[]]. cbn.
    apply find_some in Ef. destruct Ef as [Hp Hurl].
    apply String.eqb_eq in Hurl.
    split; [exact Hc|]. split; [exact Hp|]. split; [exact Hurl|].
    split; [reflexivity|]. split.
    + intros ->. rewrite (proj2 (reviewEqb_spec c c) eq_refl) in Eq.
      discriminate.
    + rewrite filter_In, negb_true_iff, <- not_true_iff_false,
        arrayIncludes_spec.
      intros [_ Hnot]. apply Hnot. rewrite <- Hurl. apply in_map, Hp.
  - intros Hnd p c Hp Hc Hurl Hne. apply in_flat_map. exists c.
    split; [exact Hc|].
    rewrite (find_by_url previous p (url c) Hnd Hp Hurl).
    destruct (ChangeDetector.reviewEqb p c) eqn:Eq.
    + apply reviewEqb_spec in Eq. contradiction.
    + now left.
  - intros Hnd ->. split; [|split].
    + apply filter_nothing. intros r Hr.
      apply negb_false_iff, arrayIncludes_spec, in_map, Hr.
    + apply flat_map_nothing. intros c Hc.
      rewrite (find_by_url previous c (url c) Hnd Hc eq_refl).
      now rewrite (proj2 (reviewEqb_spec c c) eq_refl).
    + apply filter_nothing. intros r Hr.
      apply negb_false_iff, arrayIncludes_spec, in_map, Hr.
Qed.

Lemma changeDetector_updated_witness :
  In {| ChangeDetector.updUrl := "https://www.gotaukulele.com/a.html";
        ChangeDetector.updPrevious :=
          review "https://www.gotaukulele.com/a.html" "50-100";
        ChangeDetector.updCurrent :=
          review "https://www.gotaukulele.com/a.html" "100-200" |}
     (ChangeDetector.changesUpdated
        (ChangeDetector.generateDiffReport "2026-01-01T00:00:00.000Z"
           (Some [review "https://www.gotaukulele.com/a.html" "50-100"])
           [review "https://www.gotaukulele.com/a.html" "100-200"])).
Proof.
  refine (proj1 (proj2 (changeDetector_updated "2026-01-01T00:00:00.000Z"
                          [review "https://www.gotaukulele.com/a.html" "50-100"]
                          [review "https://www.gotaukulele.com/a.html"
                             "100-200"]))
            _ (review "https://www.gotaukulele.com/a.html" "50-100")
            (review "https://www.gotaukulele.com/a.html" "100-200")
            _ _ _ _).
  - repeat constructor. intros [].
  - left; reflexivity.
  - left; reflexivity.
  - reflexivity.
  - discriminate.
Defined.

Lemma fold_add_NoDup_id (l acc : list string) :
  NoDup (acc ++ l) -> fold_left add l acc = (acc ++ l)%list.
Proof.
  revert acc. induction l as [|x l IH]; intros acc Hnd; simpl.
  - now rewrite app_nil_r.
  - assert (Hx : has acc x = false).
    { apply has_false. intros Hin.
      apply NoDup_remove_2 in Hnd. apply Hnd, in_or_app. now left. }
    unfold add at 2. rewrite Hx.
    rewrite IH; rewrite <- app_assoc; [reflexivity | exact Hnd].
Qed.

Lemma newSet_NoDup_id (l : list string) : NoDup l -> newSet l = l.
Proof. intros H. unfold newSet. now rewrite fold_add_NoDup_id. Qed.

Lemma NoDup_map_filter (p : Review -> bool) (l : list Review) :
  NoDup (map url l) -> NoDup (map url (filter p l)).
Proof.
  induction l as [|r l IH]; intros Hnd; simpl; [constructor|].
  simpl in Hnd. inversion Hnd as [|? ? Hr Hl]; subst.
  destruct (p r); simpl; [|now apply IH].
  constructor; [|now apply IH].
  intros Hin. apply Hr. apply in_map_iff in Hin.
  destruct Hin as [q [Hq Hin]]. apply filter_In in Hin.
  rewrite <- Hq. apply in_map, Hin.
Qed.

Lemma common_urls_count (previous current : list Review) :
  NoDup (map url previous) -> NoDup (map url current) ->
  List.length
    (filter (fun item => ChangeDetector.arrayIncludes (map url previous)
                           (url item)) current)
  = List.length
      (filter (fun item => ChangeDetector.arrayIncludes (map url current)
                             (url item)) previous).
Proof.
  intros Hp Hc.
  rewrite <- (length_map url (filter _ current)).
  rewrite <- (length_map url (filter _ previous)).
  apply Permutation_length, NoDup_Permutation.
  - now apply NoDup_map_filter.
  - now apply NoDup_map_filter.
  - intros u. rewrite !in_map_iff. split.
    + intros [r [Hu Hr]]. apply filter_In in Hr. destruct Hr as [Hr Hin].
      apply arrayIncludes_spec in Hin. rewrite Hu in Hin.
      apply in_map_iff in Hin. destruct Hin as [q [Hq Hqin]].
      exists q. split; [exact Hq|]. apply filter_In. split; [exact Hqin|].
      apply arrayIncludes_spec. rewrite Hq, <- Hu. apply in_map, Hr.
    + intros [r [Hu Hr]]. apply filter_In in Hr. destruct Hr as [Hr Hin].
      apply arrayIncludes_spec in Hin. rewrite Hu in Hin.
      apply in_map_iff in Hin. destruct Hin as [q [Hq Hqin]].
      exists q. split; [exact Hq|]. apply filter_In. split; [exact Hqin|].
      apply arrayIncludes_spec. rewrite Hq, <- Hu. apply in_map, Hr.
Qed.

(** X12.  When the URLs of the previous list are distinct and so are
    those of the current list, both diff reports balance: the number of
    new records minus the number of removed entries is the net change. *)
Theorem diff_balance (now : string) (previous current : list Review) :
  NoDup (map url previous) -> NoDup (map url current) ->
  (Z.of_nat (List.length
     (Scraper.changesNew
        (Scraper.generateDiffReport now (Some previous) current)))
   - Z.of_nat (List.length
       (Scraper.changesRemoved
          (Scraper.generateDiffReport now (Some previous) current)))
   = Scraper.netChange
       (Scraper.generateDiffReport now (Some previous) current))%Z /\
  (Z.of_nat (List.length
     (ChangeDetector.changesNew
        (ChangeDetector.generateDiffReport now (Some previous) current)))
   - Z.of_nat (List.length
       (ChangeDetector.changesRemoved
          (ChangeDetector.generateDiffReport now (Some previous) current)))
   = ChangeDetector.netChange
       (ChangeDetector.generateDiffReport now (Some previous) current))%Z.
Proof.
  intros Hp Hc.
  pose proof (common_urls_count previous current Hp Hc) as Hcommon.
  pose proof (filter_length
                (fun item => ChangeDetector.arrayIncludes (map url previous)
                               (url item)) current) as Hcur.
  pose proof (filter_length
                (fun item => ChangeDetector.arrayIncludes (map url current)
                               (url item)) previous) as Hprev.
  assert (Hdet :
    (Z.of_nat (List.length
       (filter (fun item =>
                  negb (ChangeDetector.arrayIncludes (map url previous)
                          (url item))) current))
     - Z.of_nat (List.length
         (filter (fun item =>
                    negb (ChangeDetector.arrayIncludes (map url current)
                            (url item))) previous))
     = Z.of_nat (List.length current) - Z.of_nat (List.length previous))%Z)
    by lia.
  split; [|exact Hdet].
  cbn -[newSet has ChangeDetector.arrayIncludes].
  rewrite (newSet_NoDup_id _ Hp), (newSet_NoDup_id _ Hc).
  rewrite filter_map_swap, length_map.
  assert (E1 :
    filter (fun item => negb (has (map url previous) (url item))) current
    = filter (fun item =>
                negb (ChangeDetector.arrayIncludes (map url previous)
                        (url item))) current) by reflexivity.
  assert (E2 :
    filter (fun a => negb (has (map url current) (url a))) previous
    = filter (fun item =>
                negb (ChangeDetector.arrayIncludes (map url current)
                        (url item))) previous) by reflexivity.
  rewrite E1, E2. exact Hdet.
Qed.

Lemma diff_balance_witness :
  (Z.of_nat (List.length
     (ChangeDetector.changesNew
        (ChangeDetector.generateDiffReport "2026-01-01T00:00:00.000Z"
           (Some [review "https://www.gotaukulele.com/a.html" "100-200";
                  review "https://www.gotaukulele.com/b.html" "50-100"])
           [review "https://www.gotaukulele.com/b.html" "50-100"])))
   - Z.of_nat (List.length
       (ChangeDetector.changesRemoved
          (ChangeDetector.generateDiffReport "2026-01-01T00:00:00.000Z"
             (Some [review "https://www.gotaukulele.com/a.html" "100-200";
                    review "https://www.gotaukulele.com/b.html" "50-100"])
             [review "https://www.gotaukulele.com/b.html" "50-100"])))
   = ChangeDetector.netChange
       (ChangeDetector.generateDiffReport "2026-01-01T00:00:00.000Z"
          (Some [review "https://www.gotaukulele.com/a.html" "100-200";
                 review "https://www.gotaukulele.com/b.html" "50-100"])
          [review "https://www.gotaukulele.com/b.html" "50-100"]))%Z.
Proof.
  apply (diff_balance "2026-01-01T00:00:00.000Z"
           [review "https://www.gotaukulele.com/a.html" "100-200";
            review "https://www.gotaukulele.com/b.html" "50-100"]
           [review "https://www.gotaukulele.com/b.html" "50-100"]).
  - repeat constructor; simpl; intuition discriminate.
  - repeat constructor; simpl; intuition.
Defined.

(** ** The text after a link, in general *)

Lemma joinAll_app (a : string) (d : string) (texts : list string) :
  a ++ joinAll (d :: texts) = (a ++ d) ++ joinAll texts.
Proof. simpl. now rewrite append_assoc. Qed.

Lemma scan_at_limit (nodes : list node) (acc : string) :
  100 <= String.length acc -> scanSiblings nodes acc = acc.
Proof.
  intros H. destruct nodes as [|n rest]; simpl; [reflexivity|].
  destruct (String.length acc <? 100)%nat eqn:E; [|reflexivity].
  apply Nat.ltb_lt in E. lia.
Qed.

(** X13.  What the scan over the siblings of a link collects.  Elements
    and text nodes without "out" play no part, whatever their name: the
    result is the same as on the chain of the text nodes that contain
    "out".  The data of these nodes are appended in order, and a node is
    added exactly as long as fewer than 100 characters have been
    collected, so the scan ends at the end of the chain or with at least
    100 characters. *)
Theorem scanSiblings_collects (nodes : list node) (acc : string) :
  scanSiblings nodes acc = scanSiblings (filter isOutText nodes) acc /\
  exists k,
    k <= List.length (outTexts nodes) /\
    scanSiblings nodes acc = acc ++ joinAll (firstn k (outTexts nodes)) /\
    (k < List.length (outTexts nodes) ->
     100 <= String.length (scanSiblings nodes acc)) /\
    (forall j, j < k ->
       String.length (acc ++ joinAll (firstn j (outTexts nodes))) < 100).
Proof.
  split.
  - revert acc. induction nodes as [|n rest IH]; intros acc; [reflexivity|].
    destruct (Nat.ltb_spec (String.length acc) 100) as [Hlt|Hge].
    2:{ now rewrite !scan_at_limit. }
    destruct n as [i d|i name]; cbn [filter isOutText].
    + destruct (includes d "out") eqn:E; cbn [scanSiblings];
        apply Nat.ltb_lt in Hlt; rewrite Hlt, ?E; apply IH.
    + cbn [scanSiblings]. apply Nat.ltb_lt in Hlt. rewrite Hlt.
      destruct (String.eqb name "br" && String.eqb name "div") eqn:E;
        [|apply IH].
      apply andb_true_iff in E. destruct E as [E1 E2].
      apply String.eqb_eq in E1. apply String.eqb_eq in E2.
      subst. discriminate.
  - revert acc. induction nodes as [|n rest IH]; intros acc.
    + exists 0. simpl. rewrite append_nil_r.
      repeat split; [lia | lia | intros j Hj; lia].
    + destruct (Nat.ltb_spec (String.length acc) 100) as [Hlt|Hge].
      2:{ exists 0. rewrite scan_at_limit by exact Hge. simpl.
          rewrite append_nil_r.
          repeat split; [lia | intros _; exact Hge | intros j Hj; lia]. }
      assert (Hltb : (String.length acc <? 100)%nat = true)
        by now apply Nat.ltb_lt.
      destruct n as [i d|i name].
      * cbn [scanSiblings]. rewrite Hltb.
        destruct (includes d "out") eqn:E.
        -- destruct (IH (acc ++ d)) as [k [Hk [Hres [Hmore Hless]]]].
           exists (S k).
           assert (Houts : outTexts (Text i d :: rest) = d :: outTexts rest).
           { unfold outTexts. cbn [filter isOutText]. now rewrite E. }
           rewrite Houts. cbn [List.length firstn].
           split; [lia|]. split.
           { rewrite Hres. now rewrite joinAll_app. }
           split; [intros H; apply Hmore; lia|].
           intros j Hj. destruct j as [|j].
           { simpl. now rewrite append_nil_r. }
           cbn [firstn]. rewrite joinAll_app. apply Hless. lia.
        -- destruct (IH acc) as [k [Hk [Hres [Hmore Hless]]]].
           exists k.
           assert (Houts : outTexts (Text i d :: rest) = outTexts rest).
           { unfold outTexts. cbn [filter isOutText]. now rewrite E. }
           rewrite Houts. repeat split; assumption.
      * cbn [scanSiblings]. rewrite Hltb.
        assert (Hname : String.eqb name "br" && String.eqb name "div" = false).
        { destruct (String.eqb_spec name "br") as [->|]; reflexivity. }
        rewrite Hname.
        destruct (IH acc) as [k [Hk [Hres [Hmore Hless]]]].
        exists k. change (outTexts (Tag i name :: rest)) with (outTexts rest).
        repeat split; assumption.
Qed.

Lemma scanBoldSiblings_first (nodes : list node) :
  scanBoldSiblings nodes ""
  = match firstText nodes with Some d => d | None => "" end.
Proof.
  induction nodes as [|n rest IH]; [reflexivity|].
  destruct n as [i d|i name]; cbn [scanBoldSiblings firstText].
  - reflexivity.
  - cbn [String.length Nat.ltb Nat.leb].
    destruct (String.eqb_spec name "br") as [->|]; cbn [andb]; [|exact IH].
    cbn. exact IH.
Qed.

(** X14.  The fallback for a link set in bold.  When no sibling of the
    link has a text with "out", the parent of the link decides.  Under a
    [b] element the text taken is the data of the first text node among
    the siblings of that [b], whatever it says and however many elements
    (line breaks included) come before it, and the empty string when
    there is none.  Under any other element nothing is collected.  For a
    link without a parent element the loop body throws. *)
Theorem followingTextOf_bold (a : anchor) :
  outTexts (next a) = [] ->
  (parentName a = Some "b" ->
   followingTextOf a
   = Return match firstText (parentNext a) with
            | Some d => d
            | None => ""
            end) /\
  (forall name, parentName a = Some name -> name <> "b" ->
                followingTextOf a = Return "") /\
  (parentName a = None ->
   followingTextOf a
   = Throw "TypeError: Cannot read properties of undefined").
Proof.
  intros Hno. unfold followingTextOf.
  destruct (scanSiblings_collects (next a) "") as [_ [k [_ [Hres _]]]].
  rewrite Hno in Hres. rewrite firstn_nil in Hres. simpl in Hres.
  rewrite Hres. cbn [String.eqb]. split; [|split].
  - intros ->. cbn. f_equal. apply scanBoldSiblings_first.
  - intros name -> Hne.
    destruct (String.eqb_spec name "b"); [contradiction | reflexivity].
  - intros ->. reflexivity.
Qed.

Lemma followingTextOf_bold_witness :
  followingTextOf boldLink = Return " - 7 out of 10 (Mar 2021)" /\
  followingTextOf topLink
    = Throw "TypeError: Cannot read properties of undefined".
Proof.
  split.
  - apply (proj1 (followingTextOf_bold boldLink eq_refl)). reflexivity.
  - apply (proj2 (proj2 (followingTextOf_bold topLink eq_refl))).
    reflexivity.
Defined.

(** ** Records of the link loop *)



Lemma collect_nothing (spans : list span) :
  (forall element key,
      In element spans -> In key (map fst priceRanges) ->
      startsWith (trim (spanText element)) key = false) ->
  collectPriceTitleNodes spans = [].
Proof.
  intros Hno. unfold collectPriceTitleNodes. apply flat_map_nothing.
  intros entry Hentry.
  rewrite filter_nothing; [reflexivity|].
  intros element He. apply Hno; [exact He | apply in_map, Hentry].
Qed.

(** X16.  On a page where no [b > span] text starts with a heading of the
    price table, no price heading is collected, and then building the
    record of any link throws: such a page cannot yield a single
    review. *)
Theorem reviewDataOf_without_headings (spans : list span) :
  (forall element key,
      In element spans -> In key (map fst priceRanges) ->
      startsWith (trim (spanText element)) key = false) ->
  collectPriceTitleNodes spans = [] /\
  forall parseFloat a h i ratingText dateText,
    reviewDataOf parseFloat a h i (collectPriceTitleNodes spans)
      ratingText dateText
      = Throw "TypeError: Cannot read properties of undefined".
Proof.
  intros Hno. rewrite (collect_nothing spans Hno).
  split; [reflexivity|]. reflexivity.
Qed.

Lemma reviewDataOf_without_headings_witness :
  reviewDataOf asWritten
    (reviewLink 3000 "Kala KA-15S Soprano" " - 8 out of 10 (Mar 2021)")
    "/2021/03/review.html" 0
    (collectPriceTitleNodes [heading 900 "Some other bold text"])
    "8" "Mar 2021"
  = Throw "TypeError: Cannot read properties of undefined".
Proof.
  apply (proj2 (reviewDataOf_without_headings
                  [heading 900 "Some other bold text"]
                  ltac:(intros element key [<-|[]] Hkey; simpl in Hkey;
                        repeat (destruct Hkey as [<-|Hkey]; [reflexivity|]);
                        destruct Hkey))).
Defined.

(** ** Pages whose sections follow the price table *)

Lemma StronglySorted_app {A : Type} (R : A -> A -> Prop) (l1 l2 : list A) :
  StronglySorted R l1 -> StronglySorted R l2 ->
  (forall a b, In a l1 -> In b l2 -> R a b) ->
  StronglySorted R (l1 ++ l2).
Proof.
  induction l1 as [|x l1 IH]; intros H1 H2 Hcross; simpl; [exact H2|].
  inversion H1 as [|? ? Hl Hx]; subst. constructor.
  - apply IH; [exact Hl | exact H2|].
    intros a b Ha Hb. apply Hcross; [now right | exact Hb].
  - rewrite Forall_forall in *. intros y Hy. apply in_app_or in Hy.
    destruct Hy as [Hy|Hy]; [now apply Hx|].
    apply Hcross; [now left | exact Hy].
Qed.

Lemma headings_of_key_sorted (key : string) (spans : list span) :
  StronglySorted (fun a b => startLe (firstChild a) (firstChild b)) spans ->
  StronglySorted startLe
    (map firstChild
       (filter (fun element => startsWith (trim (spanText element)) key)
          spans)).
Proof.
  induction spans as [|e l IH]; intros Hs; simpl; [constructor|].
  inversion Hs as [|? ? Hl He]; subst.
  destruct (startsWith (trim (spanText e)) key); [|now apply IH].
  simpl. constructor; [now apply IH|].
  rewrite Forall_forall in *. intros h Hh. apply in_map_iff in Hh.
  destruct Hh as [b [<- Hb]]. apply filter_In in Hb. now apply He.
Qed.

Lemma collected_sorted (keys : list string) (spans : list span) :
  StronglySorted (fun a b => startLe (firstChild a) (firstChild b)) spans ->
  (forall i j ki kj a b,
      nth_error keys i = Some ki -> nth_error keys j = Some kj -> i < j ->
      In a spans -> In b spans ->
      startsWith (trim (spanText a)) ki = true ->
      startsWith (trim (spanText b)) kj = true ->
      startLe (firstChild a) (firstChild b)) ->
  StronglySorted startLe
    (flat_map
       (fun key =>
          map firstChild
            (filter (fun element => startsWith (trim (spanText element)) key)
               spans))
       keys).
Proof.
  intros Hdoc. induction keys as [|k ks IH]; intros Hrows; simpl;
    [constructor|].
  apply StronglySorted_app.
  - now apply headings_of_key_sorted.
  - apply IH. intros i j ki kj a b Hi Hj Hlt.
    apply (Hrows (S i) (S j)); [exact Hi | exact Hj | lia].
  - intros ha hb Ha Hb. apply in_map_iff in Ha.
    destruct Ha as [a [<- Ha]]. apply filter_In in Ha.
    destruct Ha as [Ha Hka]. apply in_flat_map in Hb.
    destruct Hb as [kj [Hkj Hb]]. apply in_map_iff in Hb.
    destruct Hb as [b [<- Hb]]. apply filter_In in Hb.
    destruct Hb as [Hb Hkb]. apply In_nth_error in Hkj.
    destruct Hkj as [j Hj].
    apply (Hrows 0 (S j) k kj a b); try assumption; [reflexivity | lia].
Qed.

Lemma collect_by_keys (spans : list span) :
  collectPriceTitleNodes spans
  = flat_map
      (fun key =>
         map firstChild
           (filter (fun element => startsWith (trim (spanText element)) key)
              spans))
      (map fst priceRanges).
Proof. reflexivity. Qed.

(** X17.  On a page whose spans are in document order and whose price
    sections come in the order of the price table, the collected
    headings are in ascending order of start position, and every link
    that has a heading at or before it is given the heading nearest
    before it. *)
Theorem collectPriceTitleNodes_in_table_order (spans : list span) :
  PageInTableOrder spans ->
  StronglySorted startLe (collectPriceTitleNodes spans) /\
  forall n,
    (exists h', In h' (collectPriceTitleNodes spans) /\ startLe h' n) ->
    exists h,
      priceNodeFor n (collectPriceTitleNodes spans) = Some h /\
      NearestPreceding n (collectPriceTitleNodes spans) h.
Proof.
  intros [Hdoc Hrows].
  assert (Hsorted : StronglySorted startLe (collectPriceTitleNodes spans)).
  { rewrite collect_by_keys. now apply collected_sorted. }
  split; [exact Hsorted|].
  intros n [h' [Hh' Hle']]. unfold priceNodeFor.
  destruct (priceNode_step_last n (collectPriceTitleNodes spans)
              (hd_error (collectPriceTitleNodes spans)))
    as [[_ Hnone]|[l1 [h [l2 [Hl [Hf [Hle Hafter]]]]]]].
  - exfalso. exact (Hnone h' Hh' Hle').
  - exists h. split; [exact Hf|].
    assert (Hin : In h (collectPriceTitleNodes spans)).
    { rewrite Hl. apply in_or_app. right. now left. }
    split; [exact Hin|]. split; [exact Hle|].
    intros x Hx Hxle. rewrite Hl in Hx, Hsorted.
    apply in_app_or in Hx. destruct Hx as [Hx|[<-|Hx]].
    + exact (sorted_before l1 l2 _ Hsorted x Hx).
    + unfold startLe. lia.
    + exfalso. exact (Hafter x Hx Hxle).
Qed.

Lemma smallPage_in_table_order : PageInTableOrder smallPage.
Proof.
  split.
  - cbv. repeat constructor; discriminate.
  - intros i j ki kj a b Hi Hj Hlt Ha Hb Hka Hkb.
    simpl in Ha, Hb.
    destruct Ha as [<-|[<-|[<-|[]]]]; destruct Hb as [<-|[<-|[<-|[]]]];
      try (cbv; discriminate);
      exfalso;
      (destruct i as [|[|[|[|[|i]]]]]; simpl in Hi;
       [| | | | |destruct i; discriminate Hi]);
      injection Hi as <-; vm_compute in Hka; try discriminate Hka;
      (destruct j as [|[|[|[|[|j]]]]]; simpl in Hj;
       [| | | | |destruct j; discriminate Hj]);
      injection Hj as <-; vm_compute in Hkb; try discriminate Hkb;
      lia.
Qed.

Lemma collectPriceTitleNodes_in_table_order_witness :
  exists h,
    priceNodeFor (Tag 1500 "a") (collectPriceTitleNodes smallPage) = Some h /\
    NearestPreceding (Tag 1500 "a") (collectPriceTitleNodes smallPage) h.
Proof.
  apply (proj2 (collectPriceTitleNodes_in_table_order smallPage
                  smallPage_in_table_order)).
  exists (Text 100 ("Ukuleles " ++ pound ++ "0 - " ++ pound ++ "50")).
  split; [left; reflexivity | cbv; discriminate].
Defined.

(** ** The cache of seen URLs *)

Lemma getEntry_setEntry_same (urls : list (string * ChangeDetector.CacheEntry))
    (key : string) (entry : ChangeDetector.CacheEntry) :
  ChangeDetector.getEntry (ChangeDetector.setEntry urls key entry) key
  = Some entry.
Proof.
  induction urls as [|[k e] l IH]; simpl.
  - now rewrite String.eqb_refl.
  - destruct (String.eqb k key) eqn:E; simpl; rewrite E; [reflexivity|].
    exact IH.
Qed.

Lemma getEntry_setEntry_other
    (urls : list (string * ChangeDetector.CacheEntry))
    (key other : string) (entry : ChangeDetector.CacheEntry) :
  other <> key ->
  ChangeDetector.getEntry (ChangeDetector.setEntry urls key entry) other
  = ChangeDetector.getEntry urls other.
Proof.
  intros Hne. induction urls as [|[k e] l IH]; simpl.
  - destruct (String.eqb_spec key other); [congruence | reflexivity].
  - destruct (String.eqb_spec k key) as [->|Hk]; simpl.
    + destruct (String.eqb_spec key other); [congruence | reflexivity].
    + destruct (String.eqb k other); [reflexivity | exact IH].
Qed.

Lemma getEntry_In (urls : list (string * ChangeDetector.CacheEntry))
    (key : string) (entry : ChangeDetector.CacheEntry) :
  In (key, entry) urls -> ChangeDetector.getEntry urls key <> None.
Proof.
  induction urls as [|[k e] l IH]; intros Hin; [destruct Hin|]. simpl.
  destruct (String.eqb_spec k key) as [->|Hk]; [discriminate|].
  destruct Hin as [H|H]; [inversion H; congruence | now apply IH].
Qed.

Lemma getEntry_Some_In (urls : list (string * ChangeDetector.CacheEntry))
    (key : string) (entry : ChangeDetector.CacheEntry) :
  ChangeDetector.getEntry urls key = Some entry -> In (key, entry) urls.
Proof.
  induction urls as [|[k e] l IH]; simpl; [discriminate|].
  destruct (String.eqb_spec k key) as [->|Hk].
  - intros H. inversion H. now left.
  - intros H. right. now apply IH.
Qed.

Lemma setEntry_In (urls : list (string * ChangeDetector.CacheEntry))
    (key k : string) (entry e : ChangeDetector.CacheEntry) :
  In (k, e) (ChangeDetector.setEntry urls key entry) ->
  (k, e) = (key, entry) \/ In (k, e) urls.
Proof.
  induction urls as [|[k0 e0] l IH]; simpl.
  - intros [H|[]]. left. now symmetry.
  - destruct (String.eqb_spec k0 key) as [->|Hk]; simpl.
    + intros [H|H]; [left; now symmetry | right; now right].
    + intros [H|H]; [right; now left|].
      destruct (IH H) as [H'|H']; [now left | right; now right].
Qed.

(** X18.  Storing and asking again.  After [updateCache] for a URL on a
    loaded cache, that URL is no longer new when asked without a content
    hash or with an empty one; asked with a content hash, it counts as
    updated exactly when the stored hash is another one or none.  The
    answer for a URL with a different hash key is not affected, while a
    URL with the same hash key is from then on taken as seen. *)
Theorem updateCache_then_isNewOrUpdated (generateHash : string -> string)
    (now : string) (cache : ChangeDetector.Cache) (u : string)
    (data : ChangeDetector.EntryData) :
  let after :=
    snd (ChangeDetector.updateCache generateHash now (Some cache) u data) in
  fst (ChangeDetector.updateCache generateHash now (Some cache) u data)
    = Return tt /\
  ChangeDetector.isNewOrUpdated generateHash after u None = false /\
  ChangeDetector.isNewOrUpdated generateHash after u (Some "") = false /\
  (forall h, h <> "" ->
     (ChangeDetector.isNewOrUpdated generateHash after u (Some h) = false <->
      ChangeDetector.dataContentHash data = Some h)) /\
  (forall other contentHash,
      generateHash other <> generateHash u ->
      ChangeDetector.isNewOrUpdated generateHash after other contentHash
      = ChangeDetector.isNewOrUpdated generateHash (Some cache) other
          contentHash) /\
  (forall other,
      generateHash other = generateHash u ->
      ChangeDetector.isNewOrUpdated generateHash after other None = false).
Proof.
  intros after. subst after.
  unfold ChangeDetector.updateCache, ChangeDetector.isNewOrUpdated.
  cbn [fst snd ChangeDetector.urls].
  split; [reflexivity|].
  rewrite getEntry_setEntry_same. cbn [ChangeDetector.ceContentHash].
  split; [reflexivity|]. split; [reflexivity|]. split; [|split].
  - intros h Hh. destruct (String.eqb_spec h "") as [|_]; [contradiction|].
    cbn [negb andb].
    destruct (ChangeDetector.dataContentHash data) as [stored|].
    + destruct (String.eqb_spec stored h) as [->|Hne]; cbn.
      * tauto.
      * split; [discriminate | intros H; inversion H; contradiction].
    + cbn. split; discriminate.
  - intros other contentHash Hne.
    now rewrite getEntry_setEntry_other.
  - intros other ->. now rewrite getEntry_setEntry_same.
Qed.

(** X19.  Before any cache is in memory every URL is new, every URL is
    to be scraped and every URL counts as new in the statistics, but
    [updateCache] throws and leaves the cache missing.  Once
    [startNewRun] has been called, [updateCache] returns, and the URL it
    stored is no longer new. *)
Theorem without_cache (generateHash : string -> string) (now : string)
    (u : string) (data : ChangeDetector.EntryData)
    (contentHash : option string) (allUrls : list string)
    (forceAll : bool) :
  ChangeDetector.isNewOrUpdated generateHash None u contentHash = true /\
  ChangeDetector.getUrlsToScrape generateHash None allUrls forceAll
    = allUrls /\
  ChangeDetector.newUrls (ChangeDetector.getChangeStats None allUrls)
    = List.length allUrls /\
  ChangeDetector.unchangedUrls (ChangeDetector.getChangeStats None allUrls)
    = 0 /\
  ChangeDetector.updateCache generateHash now None u data
    = (Throw "TypeError: Cannot read properties of null", None) /\
  fst (ChangeDetector.updateCache generateHash now
         (Some (ChangeDetector.startNewRun now None)) u data) = Return tt /\
  ChangeDetector.isNewOrUpdated generateHash
    (snd (ChangeDetector.updateCache generateHash now
            (Some (ChangeDetector.startNewRun now None)) u data)) u None
    = false.
Proof.
  repeat split.
  unfold ChangeDetector.updateCache, ChangeDetector.isNewOrUpdated.
  cbn [snd ChangeDetector.urls]. now rewrite getEntry_setEntry_same.
Qed.

Lemma runs_app (times : list string) (now : string) :
  runs (times ++ [now])
  = Some (ChangeDetector.startNewRun now (runs times)).
Proof. unfold runs. now rewrite fold_left_app. Qed.

(** X20.  [startNewRun] records the time of the run and adds one to the
    run counter, and keeps the stored URLs and the creation time of a
    cache that exists; without a cache it creates one, stamped with the
    current time.  So after any number of runs from no cache at all the
    counter is the number of runs, the last run is the latest time, the
    creation time is the first one and no URL is stored. *)
Theorem startNewRun_counts (now : string)
    (cache : option ChangeDetector.Cache) :
  ChangeDetector.lastRun (ChangeDetector.startNewRun now cache) = Some now /\
  (forall c, cache = Some c ->
     ChangeDetector.totalRuns (ChangeDetector.startNewRun now cache)
       = S (ChangeDetector.totalRuns c) /\
     ChangeDetector.urls (ChangeDetector.startNewRun now cache)
       = ChangeDetector.urls c /\
     ChangeDetector.created (ChangeDetector.startNewRun now cache)
       = ChangeDetector.created c) /\
  (cache = None ->
   ChangeDetector.startNewRun now cache
   = {| ChangeDetector.lastRun := Some now;
        ChangeDetector.urls := [];
        ChangeDetector.created := now;
        ChangeDetector.totalRuns := 1 |}) /\
  (forall first times,
     exists c,
       runs (first :: times) = Some c /\
       ChangeDetector.totalRuns c = S (List.length times) /\
       ChangeDetector.lastRun c = Some (last times first) /\
       ChangeDetector.created c = first /\
       ChangeDetector.urls c = []).
Proof.
  split; [reflexivity|]. split.
  { intros c ->. repeat split. }
  split; [intros ->; reflexivity|].
  intros first times. induction times as [|t l IH] using rev_ind.
  - eexists. split; [reflexivity|]. repeat split.
  - destruct IH as [c [Hc [Hruns [_ [Hcreated Hurls]]]]].
    change (first :: l ++ [t])%list with ((first :: l) ++ [t])%list.
    rewrite runs_app, Hc. eexists. split; [reflexivity|].
    cbn. rewrite length_app, last_last. simpl.
    repeat split; [lia | exact Hcreated | exact Hurls].
Qed.

Lemma startNewRun_counts_witness :
  ChangeDetector.totalRuns
    (ChangeDetector.startNewRun "2026-01-02T00:00:00.000Z"
       (Some (ChangeDetector.startNewRun "2026-01-01T00:00:00.000Z" None)))
  = 2.
Proof.
  apply (proj1 (proj1 (proj2 (startNewRun_counts "2026-01-02T00:00:00.000Z"
           (Some (ChangeDetector.startNewRun "2026-01-01T00:00:00.000Z"
                    None)))) _ eq_refl)).
Defined.

Lemma updateCache_then_isNewOrUpdated_witness :
  ChangeDetector.isNewOrUpdated toyHash
    (snd (ChangeDetector.updateCache toyHash "2026-01-01T00:00:00.000Z"
            (Some (ChangeDetector.freshCache "2026-01-01T00:00:00.000Z"))
            "https://www.gotaukulele.com/a.html" (hashedData "abc")))
    "https://www.gotaukulele.com/a.html" (Some "abc") = false.
Proof.
  apply (proj1 (proj2 (proj2 (proj2
    (updateCache_then_isNewOrUpdated toyHash "2026-01-01T00:00:00.000Z"
       (ChangeDetector.freshCache "2026-01-01T00:00:00.000Z")
       "https://www.gotaukulele.com/a.html" (hashedData "abc")))))
    "abc").
  - discriminate.
  - reflexivity.
Defined.

Lemma wellKeyed_fresh (generateHash : string -> string) (now : string) :
  WellKeyed generateHash (ChangeDetector.freshCache now).
Proof. intros key entry []. Qed.

Lemma wellKeyed_startNewRun (generateHash : string -> string) (now : string)
    (cache : option ChangeDetector.Cache) :
  (forall c, cache = Some c -> WellKeyed generateHash c) ->
  WellKeyed generateHash (ChangeDetector.startNewRun now cache).
Proof.
  intros H. destruct cache as [c|].
  - exact (H c eq_refl).
  - intros key entry [].
Qed.

Lemma wellKeyed_updateCache (generateHash : string -> string) (now : string)
    (cache after : ChangeDetector.Cache) (u : string)
    (data : ChangeDetector.EntryData) :
  WellKeyed generateHash cache ->
  snd (ChangeDetector.updateCache generateHash now (Some cache) u data)
    = Some after ->
  WellKeyed generateHash after.
Proof.
  intros Hwk H. cbn in H. inversion H; subst; clear H.
  intros key entry Hin. cbn in Hin. apply setEntry_In in Hin.
  destruct Hin as [Hin|Hin]; [now inversion Hin | now apply Hwk].
Qed.

(** X21.  The statistics of [getChangeStats] on a loaded cache split the
    current URLs in two: every current URL is counted either as new or as
    unchanged, never as updated.  The list of new URLs is the list of
    current URLs with the URLs of the cache entries taken out, in the
    same order, and the cache total is the number of entries. *)
Theorem getChangeStats_partition (cache : ChangeDetector.Cache)
    (currentUrls : list string) :
  let stats := ChangeDetector.getChangeStats (Some cache) currentUrls in
  let cachedUrls :=
    map (fun item => ChangeDetector.ceUrl (snd item))
      (ChangeDetector.urls cache) in
  ChangeDetector.newUrls stats + ChangeDetector.unchangedUrls stats
    = List.length currentUrls /\
  ChangeDetector.updatedUrls stats = 0 /\
  ChangeDetector.totalCached stats
    = List.length (ChangeDetector.urls cache) /\
  ChangeDetector.newUrlsList stats = Some (without currentUrls cachedUrls) /\
  ChangeDetector.newUrls stats
    = List.length (without currentUrls cachedUrls) /\
  exists newList,
    ChangeDetector.newUrlsList stats = Some newList /\
    List.length newList = ChangeDetector.newUrls stats /\
    forall u,
      In u newList <->
      In u currentUrls /\
      ~ exists key entry,
          In (key, entry) (ChangeDetector.urls cache) /\
          ChangeDetector.ceUrl entry = u.
Proof.
  intros stats cachedUrls. subst stats cachedUrls.
  cbn -[ChangeDetector.arrayIncludes].
  assert (Hnew : forall excluded,
    filter (fun u => negb (ChangeDetector.arrayIncludes excluded u))
      currentUrls = without currentUrls excluded).
  { intros excluded. exact (filter_has_without excluded currentUrls). }
  split.
  { rewrite Nat.add_comm. apply filter_length. }
  split; [reflexivity|]. split; [apply length_map|].
  split; [now rewrite Hnew|]. split; [now rewrite Hnew|].
  eexists. split; [reflexivity|]. split; [reflexivity|].
  intros u. rewrite filter_In, negb_true_iff, <- not_true_iff_false,
    arrayIncludes_spec, in_map_iff.
  split; intros [Hu Hnot]; split; try exact Hu; intros H; apply Hnot.
  - destruct H as [key [entry [Hin Hurl]]]. now exists (key, entry).
  - destruct H as [[key entry] [Hurl Hin]]. now exists key, entry.
Qed.

Lemma cacheAll_Some (generateHash : string -> string) (now : string)
    (urlList : list string) (cache : ChangeDetector.Cache) :
  exists after,
    cacheAll generateHash now (Some cache) urlList = Some after /\
    (WellKeyed generateHash cache -> WellKeyed generateHash after) /\
    (forall key,
        ChangeDetector.getEntry (ChangeDetector.urls after) key <> None <->
        ChangeDetector.getEntry (ChangeDetector.urls cache) key <> None \/
        exists u, In u urlList /\ key = generateHash u).
Proof.
  revert cache. induction urlList as [|u l IH]; intros cache.
  - exists cache. split; [reflexivity|]. split; [auto|].
    intros key. split; [now left | intros [H|[u [[] _]]]; exact H].
  - unfold cacheAll. cbn [fold_left].
    set (next := {| ChangeDetector.lastRun := ChangeDetector.lastRun cache;
                    ChangeDetector.urls :=
                      ChangeDetector.setEntry (ChangeDetector.urls cache)
                        (generateHash u)
                        {| ChangeDetector.ceUrl := u;
                           ChangeDetector.ceLastSeen := now;
                           ChangeDetector.ceContentHash := None;
                           ChangeDetector.ceTitle := None |};
                    ChangeDetector.created := ChangeDetector.created cache;
                    ChangeDetector.totalRuns :=
                      ChangeDetector.totalRuns cache |}).
    change (snd (ChangeDetector.updateCache generateHash now (Some cache) u _))
      with (Some next).
    destruct (IH next) as [after [Hafter [Hwk Hkeys]]].
    exists after. split; [exact Hafter|]. split.
    + intros H. apply Hwk.
      apply (wellKeyed_updateCache generateHash now cache next u
               {| ChangeDetector.dataContentHash := None;
                  ChangeDetector.dataTitle := None |} H eq_refl).
    + intros key. rewrite Hkeys. subst next. cbn [ChangeDetector.urls].
      destruct (String.eqb_spec key (generateHash u)) as [->|Hne].
      * rewrite getEntry_setEntry_same. split.
        -- intros _. right. exists u. split; [now left | reflexivity].
        -- intros _. left. discriminate.
      * rewrite (getEntry_setEntry_other _ _ _ _ Hne). split.
        -- intros [H|[v [Hv Hk]]]; [now left|].
           right. exists v. split; [now right | exact Hk].
        -- intros [H|[v [[<-|Hv] Hk]]]; [now left | contradiction|].
           right. now exists v.
Qed.

(** X22.  After [updateCache] has been called for every URL of a list on
    a loaded cache, none of these URLs is left to scrape, unless all are
    forced; URLs outside the list are left to scrape exactly when their
    hash key was not in the cache before and is the hash key of no URL of
    the list.  What is to be scraped is always a selection of the given
    URLs in their order. *)
Theorem getUrlsToScrape_after_caching (generateHash : string -> string)
    (now : string) (cache : ChangeDetector.Cache)
    (urlList allUrls : list string) :
  let after := cacheAll generateHash now (Some cache) urlList in
  ChangeDetector.getUrlsToScrape generateHash after urlList false = [] /\
  ChangeDetector.getUrlsToScrape generateHash after allUrls true = allUrls /\
  (forall u,
      In u (ChangeDetector.getUrlsToScrape generateHash after allUrls false)
      <->
      In u allUrls /\
      ChangeDetector.getEntry (ChangeDetector.urls cache) (generateHash u)
        = None /\
      ~ exists v, In v urlList /\ generateHash u = generateHash v) /\
  ChangeDetector.getUrlsToScrape generateHash after allUrls false
    = filter (fun u => ChangeDetector.isNewOrUpdated generateHash after u None)
        allUrls.
Proof.
  intros after. subst after.
  destruct (cacheAll_Some generateHash now urlList cache)
    as [after [-> [_ Hkeys]]].
  cbn [ChangeDetector.getUrlsToScrape].
  assert (Hseen : forall u,
    ChangeDetector.isNewOrUpdated generateHash (Some after) u None = true <->
    ChangeDetector.getEntry (ChangeDetector.urls cache) (generateHash u)
      = None /\
    ~ exists v, In v urlList /\ generateHash u = generateHash v).
  { intros u. unfold ChangeDetector.isNewOrUpdated.
    specialize (Hkeys (generateHash u)).
    destruct (ChangeDetector.getEntry (ChangeDetector.urls after)
                (generateHash u)) as [e|].
    - split; [discriminate|]. intros [Hnone Hno].
      destruct (proj1 Hkeys ltac:(discriminate)) as [H|H];
        [contradiction | exfalso; exact (Hno H)].
    - split; [|reflexivity]. intros _. split.
      + destruct (ChangeDetector.getEntry (ChangeDetector.urls cache)
                    (generateHash u)) eqn:E; [|reflexivity].
        exfalso. apply (proj2 Hkeys); [left; discriminate | reflexivity].
      + intros H. apply (proj2 Hkeys); [now right | reflexivity]. }
  split.
  { apply filter_nothing. intros u Hu. apply not_true_iff_false.
    rewrite Hseen. intros [_ Hno]. apply Hno. now exists u. }
  split; [reflexivity|]. split; [|reflexivity].
  intros u. rewrite filter_In, Hseen. tauto.
Qed.

Lemma getUrlsToScrape_after_caching_witness :
  In "https://www.gotaukulele.com/c.html"
    (ChangeDetector.getUrlsToScrape toyHash
       (cacheAll toyHash "2026-01-01T00:00:00.000Z"
          (Some (ChangeDetector.freshCache "2026-01-01T00:00:00.000Z"))
          ["https://www.gotaukulele.com/a.html";
           "https://www.gotaukulele.com/b.html"])
       ["https://www.gotaukulele.com/a.html";
        "https://www.gotaukulele.com/c.html"] false).
Proof.
  apply (proj1 (proj2 (proj2
    (getUrlsToScrape_after_caching toyHash "2026-01-01T00:00:00.000Z"
       (ChangeDetector.freshCache "2026-01-01T00:00:00.000Z")
       ["https://www.gotaukulele.com/a.html";
        "https://www.gotaukulele.com/b.html"]
       ["https://www.gotaukulele.com/a.html";
        "https://www.gotaukulele.com/c.html"])))).
  split; [right; left; reflexivity|]. split; [reflexivity|].
  intros [v [[<-|[<-|[]]] Hv]]; discriminate Hv.
Defined.

Lemma toyHash_injective (a b : string) : toyHash a = toyHash b -> a = b.
Proof. unfold toyHash. simpl. intros H. now inversion H. Qed.

(** X23.  The statistics compare URLs while the scrape list compares
    hash keys.  On a cache in which every entry sits under the hash of
    its own URL, which is how [startNewRun] and [updateCache] build it,
    every URL left to scrape is also counted as new by the statistics.
    When in addition none of the URLs asked about has the hash of a
    different URL of the cache, the list of new URLs of the statistics is
    exactly the list of URLs left to scrape. *)
Theorem getChangeStats_agrees (generateHash : string -> string)
    (cache : ChangeDetector.Cache) (allUrls : list string) :
  WellKeyed generateHash cache ->
  (forall u,
      In u (ChangeDetector.getUrlsToScrape generateHash (Some cache)
              allUrls false) ->
      exists newList,
        ChangeDetector.newUrlsList
          (ChangeDetector.getChangeStats (Some cache) allUrls) = Some newList
        /\ In u newList) /\
  ((forall u key entry,
       In u allUrls -> In (key, entry) (ChangeDetector.urls cache) ->
       generateHash u = generateHash (ChangeDetector.ceUrl entry) ->
       u = ChangeDetector.ceUrl entry) ->
   ChangeDetector.newUrlsList
     (ChangeDetector.getChangeStats (Some cache) allUrls)
   = Some (ChangeDetector.getUrlsToScrape generateHash (Some cache)
             allUrls false)) /\
  (forall now urlList,
      exists built,
        cacheAll generateHash now
          (Some (ChangeDetector.startNewRun now None)) urlList = Some built /\
        WellKeyed generateHash built).
Proof.
  intros Hwk.
  assert (Hcached : forall u,
    ChangeDetector.arrayIncludes
      (map (fun item => ChangeDetector.ceUrl (snd item))
         (ChangeDetector.urls cache)) u = true ->
    ChangeDetector.isNewOrUpdated generateHash (Some cache) u None = false).
  { intros u Hu. apply arrayIncludes_spec, in_map_iff in Hu.
    destruct Hu as [[key entry] [Hurl Hin]]. simpl in Hurl.
    pose proof (Hwk key entry Hin) as Hkey. rewrite Hurl in Hkey.
    unfold ChangeDetector.isNewOrUpdated.
    pose proof (getEntry_In _ _ _ Hin) as Hsome. rewrite Hkey in Hsome.
    destruct (ChangeDetector.getEntry (ChangeDetector.urls cache)
                (generateHash u)); [reflexivity | contradiction]. }
  split; [|split].
  - intros u Hu.
    cbn -[ChangeDetector.arrayIncludes ChangeDetector.isNewOrUpdated] in *.
    eexists. split; [reflexivity|].
    apply filter_In in Hu. destruct Hu as [Hu Hnew].
    apply filter_In. split; [exact Hu|].
    apply negb_true_iff, not_true_iff_false. intros Hc.
    apply Hcached in Hc. congruence.
  - intros Hfree.
    cbn -[ChangeDetector.arrayIncludes ChangeDetector.isNewOrUpdated].
    f_equal. apply filter_ext_in. intros u Hu.
    destruct (ChangeDetector.arrayIncludes _ u) eqn:E.
    + now rewrite (Hcached u E).
    + cbn [negb]. symmetry. unfold ChangeDetector.isNewOrUpdated.
      destruct (ChangeDetector.getEntry (ChangeDetector.urls cache)
                  (generateHash u)) as [e|] eqn:Eg; [|reflexivity].
      exfalso. apply getEntry_Some_In in Eg.
      pose proof (Hwk _ _ Eg) as Hkey.
      pose proof (Hfree u _ e Hu Eg Hkey) as Hsame.
      apply not_true_iff_false in E. apply E.
      apply arrayIncludes_spec, in_map_iff.
      exists (generateHash u, e). split; [now symmetry | exact Eg].
  - intros now urlList.
    destruct (cacheAll_Some generateHash now urlList
                (ChangeDetector.startNewRun now None))
      as [built [Hbuilt [Hkeep _]]].
    exists built. split; [exact Hbuilt|]. apply Hkeep.
    intros key entry [].
Qed.

Lemma getChangeStats_agrees_witness :
  cacheAll toyHash "2026-01-01T00:00:00.000Z"
    (Some (ChangeDetector.startNewRun "2026-01-01T00:00:00.000Z" None))
    ["https://www.gotaukulele.com/a.html";
     "https://www.gotaukulele.com/b.html"] = Some twoSeen /\
  ChangeDetector.getUrlsToScrape toyHash (Some twoSeen)
    ["https://www.gotaukulele.com/a.html";
     "https://www.gotaukulele.com/c.html";
     "https://www.gotaukulele.com/b.html"] false
    = ["https://www.gotaukulele.com/c.html"] /\
  ChangeDetector.newUrlsList
    (ChangeDetector.getChangeStats (Some twoSeen)
       ["https://www.gotaukulele.com/a.html";
        "https://www.gotaukulele.com/c.html";
        "https://www.gotaukulele.com/b.html"])
  = Some (ChangeDetector.getUrlsToScrape toyHash (Some twoSeen)
            ["https://www.gotaukulele.com/a.html";
             "https://www.gotaukulele.com/c.html";
             "https://www.gotaukulele.com/b.html"] false).
Proof.
  split; [reflexivity|]. split; [reflexivity|].
  apply (proj1 (proj2
    (getChangeStats_agrees toyHash twoSeen
       ["https://www.gotaukulele.com/a.html";
        "https://www.gotaukulele.com/c.html";
        "https://www.gotaukulele.com/b.html"]
       ltac:(intros key entry [H|[H|[]]]; inversion H; reflexivity)))).
  intros u key entry _ _. apply toyHash_injective.
Defined.

(** ** More on brand matching and sizes *)

Lemma firstIncluded_insert (t b : string) (sorted : list string) :
  StronglySorted atLeastAsLong sorted ->
  firstIncluded t (insertByLength b sorted)
  = if includes t b then
      match firstIncluded t sorted with
      | Some c =>
          if (String.length c <=? String.length b)%nat then Some b else Some c
      | None => Some b
      end
    else firstIncluded t sorted.
Proof.
  induction sorted as [|c rest IH]; intros Hs.
  - simpl. destruct (includes t b); reflexivity.
  - inversion Hs as [|? ? Hrest Hc]; subst. rewrite Forall_forall in Hc.
    cbn [insertByLength].
    destruct (Nat.leb_spec (String.length c) (String.length b)) as [Hle|Hgt].
    + cbn [firstIncluded]. destruct (includes t b) eqn:Eb; [|reflexivity].
      destruct (includes t c) eqn:Ec.
      * apply Nat.leb_le in Hle. now rewrite Hle.
      * destruct (firstIncluded t rest) as [c'|] eqn:Er; [|reflexivity].
        apply firstIncluded_In in Er. specialize (Hc c' Er).
        unfold atLeastAsLong in Hc.
        assert (H : (String.length c' <=? String.length b)%nat = true)
          by (apply Nat.leb_le; lia).
        now rewrite H.
    + cbn [firstIncluded]. destruct (includes t c) eqn:Ec.
      * destruct (includes t b); [|reflexivity].
        assert (H : (String.length c <=? String.length b)%nat = false)
          by (apply Nat.leb_gt; lia).
        now rewrite H.
      * apply IH, Hrest.
Qed.

Lemma firstIncluded_first_longest (t : string) (brandList : list string)
    (b : string) :
  firstIncluded t (sortByLengthDesc brandList) = Some b ->
  exists l1 l2,
    brandList = (l1 ++ b :: l2)%list /\ includes t b = true /\
    (forall x, In x l1 -> includes t x = true ->
               String.length x < String.length b) /\
    (forall x, In x l2 -> includes t x = true ->
               String.length x <= String.length b).
Proof.
  revert b. induction brandList as [|a rest IH]; intros b; simpl;
    [discriminate|].
  rewrite (firstIncluded_insert t a _ (sortByLengthDesc_sorted rest)).
  destruct (includes t a) eqn:Ea.
  - destruct (firstIncluded t (sortByLengthDesc rest)) as [c|] eqn:Er.
    + destruct (IH c eq_refl) as [l1 [l2 [Hrest [Hc [Hbefore Hafter]]]]].
      destruct (Nat.leb_spec (String.length c) (String.length a)) as [Hle|Hgt].
      * intros H. inversion H; subst b. exists [], rest.
        split; [reflexivity|]. split; [exact Ea|]. split; [intros x []|].
        intros x Hx Hinc. rewrite Hrest in Hx. apply in_app_or in Hx.
        destruct Hx as [Hx|[<-|Hx]].
        -- specialize (Hbefore x Hx Hinc). lia.
        -- exact Hle.
        -- specialize (Hafter x Hx Hinc). lia.
      * intros H. inversion H; subst b. exists (a :: l1), l2.
        split; [simpl; now rewrite Hrest|]. split; [exact Hc|]. split.
        -- intros x [<-|Hx] Hinc; [exact Hgt | now apply Hbefore].
        -- exact Hafter.
    + intros H. inversion H; subst b. exists [], rest.
      split; [reflexivity|]. split; [exact Ea|]. split; [intros x []|].
      intros x Hx Hinc. rewrite firstIncluded_None in Er.
      rewrite (Er x) in Hinc; [discriminate | now apply sortByLengthDesc_In].
  - intros H. destruct (IH b H) as [l1 [l2 [Hrest [Hb [Hbefore Hafter]]]]].
    exists (a :: l1), l2. split; [simpl; now rewrite Hrest|].
    split; [exact Hb|]. split; [|exact Hafter].
    intros x [<-|Hx] Hinc; [congruence | now apply Hbefore].
Qed.

(** X24.  Ties between catalog brands are broken by catalog order.  When
    some catalog brand occurs in the upper-cased title, the brand
    returned is the first entry of the catalog among the longest ones
    that occur: every matching entry before it is strictly shorter, and
    every matching entry after it is at most as long. *)
Theorem findBestMatchingBrand_first_of_longest (title : string)
    (brandList : list string) :
  (exists b, In b brandList /\ includes (toUpperCase title) b = true) ->
  exists before after,
    brandList
      = (before ++ findBestMatchingBrand title brandList :: after)%list /\
    includes (toUpperCase title) (findBestMatchingBrand title brandList)
      = true /\
    (forall x, In x before -> includes (toUpperCase title) x = true ->
               String.length x
               < String.length (findBestMatchingBrand title brandList)) /\
    (forall x, In x after -> includes (toUpperCase title) x = true ->
               String.length x
               <= String.length (findBestMatchingBrand title brandList)).
Proof.
  intros [b [Hb Hinc]]. unfold findBestMatchingBrand.
  destruct (firstIncluded (toUpperCase title) (sortByLengthDesc brandList))
    as [found|] eqn:E.
  - exact (firstIncluded_first_longest _ _ _ E).
  - rewrite firstIncluded_None in E.
    rewrite (E b) in Hinc; [discriminate | now apply sortByLengthDesc_In].
Qed.

Lemma findBestMatchingBrand_first_of_longest_witness :
  exists before after,
    ["KALA"; "MAKALA"; "MARTIN"; "OHANA!"]
      = (before
         ++ findBestMatchingBrand "Makala vs Martin shootout"
              ["KALA"; "MAKALA"; "MARTIN"; "OHANA!"] :: after)%list /\
    includes (toUpperCase "Makala vs Martin shootout")
      (findBestMatchingBrand "Makala vs Martin shootout"
         ["KALA"; "MAKALA"; "MARTIN"; "OHANA!"]) = true.
Proof.
  destruct (findBestMatchingBrand_first_of_longest
              "Makala vs Martin shootout"
              ["KALA"; "MAKALA"; "MARTIN"; "OHANA!"])
    as [before [after [H1 [H2 _]]]].
  - exists "KALA". split; [left; reflexivity | reflexivity].
  - exists before, after. split; [exact H1 | exact H2].
Defined.

(** X25.  A size is only reported for a reason that can be read in the
    title: each of the five sizes means that its keyword occurs in the
    lower-cased title (for concert, or that the title is the exception;
    for sopranino, without the word soprano), and "other" is reported
    exactly when the title is not the exception and none of the keywords
    occurs. *)
Theorem extractSize_reads_keywords (title : string) :
  let lowerTitle := toLowerCase title in
  (extractSize title = "soprano" -> includes lowerTitle "soprano" = true) /\
  (extractSize title = "sopranino" ->
   includes lowerTitle "sopranino" = true /\
   includes lowerTitle "soprano" = false) /\
  (extractSize title = "concert" ->
   trim lowerTitle = "enya euc-ms" \/ includes lowerTitle "concert" = true) /\
  (extractSize title = "tenor" -> includes lowerTitle "tenor" = true) /\
  (extractSize title = "baritone" ->
   includes lowerTitle "baritone" = true \/
   includes lowerTitle "bari " = true) /\
  (extractSize title = "other" <->
   trim lowerTitle <> "enya euc-ms" /\
   includes lowerTitle "soprano" = false /\
   includes lowerTitle "sopranino" = false /\
   includes lowerTitle "concert" = false /\
   includes lowerTitle "tenor" = false /\
   includes lowerTitle "baritone" = false /\
   includes lowerTitle "bari " = false).
Proof.
  intros lowerTitle. unfold extractSize, getEdgeCaseSize. fold lowerTitle.
  destruct (String.eqb_spec (trim lowerTitle) "enya euc-ms") as [Hex|Hex].
  - repeat split; try discriminate; auto.
    intros [H _]. contradiction.
  - destruct (includes lowerTitle "soprano") eqn:E1;
      [repeat split; try discriminate; auto; intros [_ [H _]]; discriminate|].
    destruct (includes lowerTitle "sopranino") eqn:E2;
      [repeat split; try discriminate; auto;
       intros [_ [_ [H _]]]; discriminate|].
    destruct (includes lowerTitle "concert") eqn:E3;
      [repeat split; try discriminate; auto;
       intros [_ [_ [_ [H _]]]]; discriminate|].
    destruct (includes lowerTitle "tenor") eqn:E4;
      [repeat split; try discriminate; auto;
       intros [_ [_ [_ [_ [H _]]]]]; discriminate|].
    destruct (includes lowerTitle "baritone") eqn:E5;
      [repeat split; try discriminate; auto;
       intros [_ [_ [_ [_ [_ [H _]]]]]]; discriminate|].
    destruct (includes lowerTitle "bari ") eqn:E6;
      [repeat split; try discriminate; auto;
       intros [_ [_ [_ [_ [_ [_ H]]]]]]; discriminate|].
    cbn [orb]. repeat split; try discriminate; auto.
Qed.

Lemma extractSize_reads_keywords_witness :
  includes (toLowerCase "Kala KA-T Tenor") "tenor" = true.
Proof.
  apply (proj1 (proj2 (proj2 (proj2
    (extractSize_reads_keywords "Kala KA-T Tenor"))))).
  reflexivity.
Defined.

(** ** Letter case *)

Lemma lowerChar_classes (c : ascii) :
  lowerChar (lowerChar c) = lowerChar c /\
  isWhiteSpace (lowerChar c) = isWhiteSpace c /\
  isDigit (lowerChar c) = isDigit c /\
  isLetter (lowerChar c) = isLetter c /\
  isParen (lowerChar c) = isParen c /\
  isPound (lowerChar c) = isPound c /\
  (isDigit c = true -> lowerChar c = c).
Proof.
  destruct c as [[] [] [] [] [] [] [] []]; vm_compute;
    repeat split; intros H; try reflexivity; discriminate H.
Qed.

Lemma toLowerCase_idem (s : string) :
  toLowerCase (toLowerCase s) = toLowerCase s.
Proof.
  induction s as [|c s IH]; simpl; [reflexivity|].
  now rewrite IH, (proj1 (lowerChar_classes c)).
Qed.

Lemma removeChars_lower (drop : ascii -> bool) (s : string) :
  (forall c, drop (lowerChar c) = drop c) ->
  removeChars drop (toLowerCase s) = toLowerCase (removeChars drop s).
Proof.
  intros Hdrop. induction s as [|c s IH]; simpl; [reflexivity|].
  rewrite Hdrop. destruct (drop c); simpl; now rewrite IH.
Qed.

Lemma trimStart_lower (s : string) :
  trimStart (toLowerCase s) = toLowerCase (trimStart s).
Proof.
  induction s as [|c s IH]; simpl; [reflexivity|].
  rewrite (proj1 (proj2 (lowerChar_classes c))).
  destruct (isWhiteSpace c); [exact IH | reflexivity].
Qed.

Lemma trimEnd_lower (s : string) :
  trimEnd (toLowerCase s) = toLowerCase (trimEnd s).
Proof.
  induction s as [|c s IH]; simpl; [reflexivity|].
  rewrite IH, (proj1 (proj2 (lowerChar_classes c))).
  destruct (trimEnd s); simpl; [|reflexivity].
  destruct (isWhiteSpace c); reflexivity.
Qed.

Lemma trim_lower (s : string) : trim (toLowerCase s) = toLowerCase (trim s).
Proof. unfold trim. now rewrite trimStart_lower, trimEnd_lower. Qed.

Lemma allChars_lower (p : ascii -> bool) (s : string) :
  (forall c, p (lowerChar c) = p c) ->
  allChars p (toLowerCase s) = allChars p s.
Proof.
  intros Hp. induction s as [|c s IH]; simpl; [reflexivity|].
  now rewrite Hp, IH.
Qed.

Lemma digits_lower (s : string) :
  allChars isDigit s = true -> toLowerCase s = s.
Proof.
  induction s as [|c s IH]; simpl; [reflexivity|].
  intros H. apply andb_true_iff in H. destruct H as [Hc Hs].
  rewrite (proj2 (proj2 (proj2 (proj2 (proj2 (proj2
             (lowerChar_classes c)))))) Hc).
  now rewrite IH.
Qed.

Lemma takeN_lower (n : nat) (s : string) :
  takeN n (toLowerCase s)
  = match takeN n s with
    | Some (t, r) => Some (toLowerCase t, toLowerCase r)
    | None => None
    end.
Proof.
  revert s. induction n as [|n IH]; intros s; simpl; [reflexivity|].
  destruct s as [|c s]; simpl; [reflexivity|].
  rewrite IH. destruct (takeN n s) as [[t r]|]; reflexivity.
Qed.

Lemma yearAt_lower (s : string) : yearAt (toLowerCase s) = yearAt s.
Proof.
  unfold yearAt. rewrite takeN_lower.
  destruct (takeN 4 s) as [[digits rest]|]; [|reflexivity].
  rewrite allChars_lower by (intros c; apply lowerChar_classes).
  destruct (allChars isDigit digits) eqn:E; [|reflexivity].
  now rewrite digits_lower.
Qed.

Lemma monthYearAt_lower (s : string) :
  monthYearAt (toLowerCase s)
  = match monthYearAt s with
    | Some (letters, year) => Some (toLowerCase letters, year)
    | None => None
    end.
Proof.
  unfold monthYearAt. rewrite takeN_lower.
  destruct (takeN 3 s) as [[letters after]|]; [|reflexivity].
  rewrite allChars_lower by (intros c; apply lowerChar_classes).
  destruct (allChars isLetter letters); [|reflexivity].
  destruct after as [|c after]; [reflexivity|].
  cbn [toLowerCase].
  rewrite (proj1 (proj2 (lowerChar_classes c))).
  destruct (isWhiteSpace c) eqn:Ec; [|reflexivity].
  change (String (lowerChar c) (toLowerCase after))
    with (toLowerCase (String c after)).
  rewrite trimStart_lower, takeN_lower.
  destruct (takeN 4 (trimStart (String c after))) as [[digits rest]|];
    [|reflexivity].
  rewrite allChars_lower by (intros x; apply lowerChar_classes).
  destruct (allChars isDigit digits) eqn:E; [|reflexivity].
  now rewrite (digits_lower digits E).
Qed.

Lemma firstMatch_lower {A : Type} (p : string -> option A) (f : A -> A)
    (s : string) :
  (forall x, p (toLowerCase x) = option_map f (p x)) ->
  firstMatch p (toLowerCase s) = option_map f (firstMatch p s).
Proof.
  intros Hp. induction s as [|c s IH].
  - rewrite !firstMatch_unfold. cbn [toLowerCase].
    change EmptyString with (toLowerCase "") at 1. rewrite Hp.
    destruct (p ""); reflexivity.
  - rewrite (firstMatch_unfold p (toLowerCase (String c s))).
    rewrite (firstMatch_unfold p (String c s)). rewrite Hp.
    destruct (p (String c s)); [reflexivity|]. exact IH.
Qed.

Lemma parseReviewDate_lower (s : string) :
  parseReviewDate (Some (toLowerCase s)) = parseReviewDate (Some s).
Proof.
  destruct s as [|c s]; [reflexivity|].
  change (toLowerCase (String c s))
    with (String (lowerChar c) (toLowerCase s)).
  unfold parseReviewDate.
  change (String (lowerChar c) (toLowerCase s))
    with (toLowerCase (String c s)).
  assert (Hclean : cleanDateText (toLowerCase (String c s))
                   = toLowerCase (cleanDateText (String c s))).
  { unfold cleanDateText.
    rewrite removeChars_lower by (intros x; apply lowerChar_classes).
    apply trim_lower. }
  rewrite Hclean.
  rewrite (firstMatch_lower yearAt (fun y => y)).
  2:{ intros x. rewrite yearAt_lower. now destruct (yearAt x). }
  rewrite (firstMatch_lower monthYearAt
             (fun m => (toLowerCase (fst m), snd m))).
  2:{ intros x. rewrite monthYearAt_lower.
      now destruct (monthYearAt x) as [[l y]|]. }
  destruct (firstMatch yearAt (cleanDateText (String c s))) as [y|];
    destruct (firstMatch monthYearAt (cleanDateText (String c s)))
      as [[letters year]|]; cbn [option_map fst snd];
    try rewrite toLowerCase_idem; reflexivity.
Qed.

(** X26.  For texts made of code units below 256 (ASCII and Latin-1),
    which is what a [string] of this file is, the field normalisers do
    not look at letter case: two such texts with the same lower-cased
    form get the same size, the same price category and the same review
    date.  (Beyond that range the date does depend on the case: the
    Kelvin sign lower-cases to k, but the month pattern does not take it
    for a letter.) *)
Theorem normalisers_ignore_case (s1 s2 : string) :
  toLowerCase s1 = toLowerCase s2 ->
  extractSize s1 = extractSize s2 /\
  mapPriceRange s1 = mapPriceRange s2 /\
  parseReviewDate (Some s1) = parseReviewDate (Some s2).
Proof.
  intros H. split; [|split].
  - unfold extractSize, getEdgeCaseSize. now rewrite H.
  - unfold mapPriceRange, cleanPriceText.
    rewrite <- !removeChars_lower by (intros c; apply lowerChar_classes).
    now rewrite H.
  - rewrite <- (parseReviewDate_lower s1), <- (parseReviewDate_lower s2).
    now rewrite H.
Qed.

Lemma normalisers_ignore_case_witness :
  parseReviewDate (Some "(MAR 2021)") = parseReviewDate (Some "(mar 2021)").
Proof.
  apply (normalisers_ignore_case "(MAR 2021)" "(mar 2021)"). reflexivity.
Defined.

(** ** Price headings: cleaning and rules *)

Lemma includes_Occurs (s sub : string) :
  includes s sub = true <-> Occurs sub s.
Proof. exact (includes_spec s sub). Qed.

Lemma startsWith_Begins (s p : string) :
  startsWith s p = true <-> Begins p s.
Proof. exact (startsWith_spec s p). Qed.

Lemma removeChars_app (drop : ascii -> bool) (a b : string) :
  removeChars drop (a ++ b) = removeChars drop a ++ removeChars drop b.
Proof.
  induction a as [|c a IH]; simpl; [reflexivity|].
  destruct (drop c); simpl; now rewrite IH.
Qed.

Lemma toLowerCase_app (a b : string) :
  toLowerCase (a ++ b) = toLowerCase a ++ toLowerCase b.
Proof.
  induction a as [|c a IH]; simpl; [reflexivity | now rewrite IH].
Qed.

Lemma white_not_pound (c : ascii) :
  isWhiteSpace c = true -> isPound c = false.
Proof.
  unfold isWhiteSpace, isPound, between. intros H.
  rewrite !orb_true_iff, andb_true_iff, !Nat.leb_le, !Nat.eqb_eq in H.
  apply Nat.eqb_neq. lia.
Qed.

Lemma removePound_white (ws : string) :
  allChars isWhiteSpace ws = true -> removeChars isPound ws = ws.
Proof.
  induction ws as [|c ws IH]; simpl; [reflexivity|].
  intros H. apply andb_true_iff in H. destruct H as [Hc Hws].
  now rewrite (white_not_pound c Hc), IH.
Qed.

Lemma trimStart_all_white (ws : string) :
  allChars isWhiteSpace ws = true -> trimStart ws = "".
Proof.
  induction ws as [|c ws IH]; simpl; [reflexivity|].
  intros H. apply andb_true_iff in H. destruct H as [-> Hws]. now apply IH.
Qed.

Lemma trimEnd_all_white (ws : string) :
  allChars isWhiteSpace ws = true -> trimEnd ws = "".
Proof.
  induction ws as [|c ws IH]; simpl; [reflexivity|].
  intros H. apply andb_true_iff in H. destruct H as [Hc Hws].
  now rewrite (IH Hws), Hc.
Qed.

Lemma trimEnd_app_white (x ws : string) :
  allChars isWhiteSpace ws = true -> trimEnd (x ++ ws) = trimEnd x.
Proof.
  intros H. induction x as [|c x IH]; simpl.
  - now apply trimEnd_all_white.
  - now rewrite IH.
Qed.

Lemma trim_padded (w1 x w2 : string) :
  allChars isWhiteSpace w1 = true -> allChars isWhiteSpace w2 = true ->
  trim (w1 ++ x ++ w2) = trim x.
Proof.
  intros H1 H2. unfold trim. rewrite (trimStart_white w1 _ H1).
  induction x as [|c x IH]; simpl.
  - rewrite (trimStart_all_white w2 H2). reflexivity.
  - destruct (isWhiteSpace c); [exact IH|].
    change (String c (x ++ w2)) with (String c x ++ w2).
    now apply trimEnd_app_white.
Qed.

(** C8 (amended).  [mapPriceRange] removes every pound sign, and no
    other currency symbol, lower-cases and trims, and then applies five
    rules to the cleaned text in order, the first that matches deciding:
    "500" together with "plus" or "+"; "200 -" or "200-"; "100 -" or
    "100-"; "50-" or "50 -"; "0 -" anywhere or "0-" at the start.  A text
    that matches none is "unknown".  So a pound sign anywhere and white
    space around the text never change the category, every heading of
    the price table maps to its category, in particular the heading of
    the 200 to 500 section to "200-500", while a text with a dollar sign
    keeps the sign. *)
Theorem mapPriceRange_priority (priceRangeText : string) :
  let cleanText := trim (toLowerCase (removeChars isPound priceRangeText)) in
  let rule500 :=
    Occurs "500" cleanText /\
    (Occurs "plus" cleanText \/ Occurs "+" cleanText) in
  let rule200 := Occurs "200 -" cleanText \/ Occurs "200-" cleanText in
  let rule100 := Occurs "100 -" cleanText \/ Occurs "100-" cleanText in
  let rule50 := Occurs "50-" cleanText \/ Occurs "50 -" cleanText in
  let rule0 := Occurs "0 -" cleanText \/ Begins "0-" cleanText in
  (rule500 -> mapPriceRange priceRangeText = "500+") /\
  (~ rule500 -> rule200 -> mapPriceRange priceRangeText = "200-500") /\
  (~ rule500 -> ~ rule200 -> rule100 ->
   mapPriceRange priceRangeText = "100-200") /\
  (~ rule500 -> ~ rule200 -> ~ rule100 -> rule50 ->
   mapPriceRange priceRangeText = "50-100") /\
  (~ rule500 -> ~ rule200 -> ~ rule100 -> ~ rule50 -> rule0 ->
   mapPriceRange priceRangeText = "<50") /\
  (~ rule500 -> ~ rule200 -> ~ rule100 -> ~ rule50 -> ~ rule0 ->
   mapPriceRange priceRangeText = "unknown") /\
  (forall before after,
      priceRangeText = before ++ pound ++ after ->
      mapPriceRange priceRangeText = mapPriceRange (before ++ after)) /\
  (forall w1 w2,
      allChars isWhiteSpace w1 = true -> allChars isWhiteSpace w2 = true ->
      mapPriceRange (w1 ++ priceRangeText ++ w2)
      = mapPriceRange priceRangeText) /\
  (forall title category,
      In (title, category) priceRanges -> mapPriceRange title = category) /\
  mapPriceRange ("Ukuleles " ++ pound ++ "200 - " ++ pound ++ "500")
    = "200-500" /\
  mapPriceRange (pound ++ "0-50") = "<50" /\
  mapPriceRange ("50" ++ pound ++ "- 100") = "50-100" /\
  mapPriceRange "  0-50 " = "<50" /\
  mapPriceRange "500 PLUS" = "500+" /\
  mapPriceRange "$0-50" = "unknown".
Proof.
  intros cleanText rule500 rule200 rule100 rule50 rule0.
  assert (B500 :
    includes cleanText "500" &&
    (includes cleanText "plus" || includes cleanText "+") = true
    <-> rule500).
  { rewrite andb_true_iff, orb_true_iff, !includes_Occurs. reflexivity. }
  assert (B200 :
    includes cleanText "200 -" || includes cleanText "200-" = true
    <-> rule200).
  { rewrite orb_true_iff, !includes_Occurs. reflexivity. }
  assert (B100 :
    includes cleanText "100 -" || includes cleanText "100-" = true
    <-> rule100).
  { rewrite orb_true_iff, !includes_Occurs. reflexivity. }
  assert (B50 :
    includes cleanText "50-" || includes cleanText "50 -" = true <-> rule50).
  { rewrite orb_true_iff, !includes_Occurs. reflexivity. }
  assert (B0 :
    includes cleanText "0 -" || startsWith cleanText "0-" = true <-> rule0).
  { rewrite orb_true_iff, includes_Occurs, startsWith_Begins. reflexivity. }
  assert (Hyes : forall (b : bool) (P : Prop), (b = true <-> P) -> P ->
                                                b = true) by (intros; tauto).
  assert (Hno : forall (b : bool) (P : Prop), (b = true <-> P) -> ~ P ->
                                               b = false).
  { intros b P HbP HnP. apply not_true_iff_false. tauto. }
  unfold mapPriceRange at 1 2 3 4 5 6. unfold cleanPriceText.
  fold cleanText.
  split.
  { intros H. now rewrite (Hyes _ _ B500 H). }
  split.
  { intros N5 H. now rewrite (Hno _ _ B500 N5), (Hyes _ _ B200 H). }
  split.
  { intros N5 N2 H.
    now rewrite (Hno _ _ B500 N5), (Hno _ _ B200 N2), (Hyes _ _ B100 H). }
  split.
  { intros N5 N2 N1 H.
    now rewrite (Hno _ _ B500 N5), (Hno _ _ B200 N2), (Hno _ _ B100 N1),
      (Hyes _ _ B50 H). }
  split.
  { intros N5 N2 N1 N50 H.
    now rewrite (Hno _ _ B500 N5), (Hno _ _ B200 N2), (Hno _ _ B100 N1),
      (Hno _ _ B50 N50), (Hyes _ _ B0 H). }
  split.
  { intros N5 N2 N1 N50 N0.
    now rewrite (Hno _ _ B500 N5), (Hno _ _ B200 N2), (Hno _ _ B100 N1),
      (Hno _ _ B50 N50), (Hno _ _ B0 N0). }
  split.
  { intros before after ->. unfold mapPriceRange, cleanPriceText.
    rewrite !removeChars_app.
    assert (Hp : removeChars isPound pound = "") by reflexivity.
    rewrite Hp. reflexivity. }
  split.
  { intros w1 w2 H1 H2. unfold mapPriceRange, cleanPriceText.
    rewrite !removeChars_app, !toLowerCase_app.
    rewrite (removePound_white w1 H1), (removePound_white w2 H2).
    rewrite trim_padded; [reflexivity| |];
      rewrite allChars_lower; try assumption;
      intros c; apply lowerChar_classes. }
  split.
  { intros title category H. simpl in H.
    repeat match goal with
           | H : _ \/ _ |- _ => destruct H as [H|H]
           | H : (_, _) = (_, _) |- _ => inversion H; subst; clear H
           | H : False |- _ => destruct H
           end; vm_compute; reflexivity. }
  repeat split.
Qed.

Lemma mapPriceRange_priority_witness :
  mapPriceRange ("Ukuleles " ++ pound ++ "50- " ++ pound ++ "100") = "50-100"
  /\ mapPriceRange "Vintage instruments" = "unknown"
  /\ mapPriceRange ("0-" ++ pound ++ "50") = mapPriceRange ("0-" ++ "50")
  /\ mapPriceRange (" " ++ "500 plus" ++ "  ") = mapPriceRange "500 plus".
Proof.
  assert (Hnot : forall sub s, includes s sub = false -> ~ Occurs sub s).
  { intros sub s H Ho. apply includes_Occurs in Ho. congruence. }
  assert (Hnob : forall p s, startsWith s p = false -> ~ Begins p s).
  { intros p s H Hb. apply startsWith_Begins in Hb. congruence. }
  split; [|split; [|split]].
  - apply (proj1 (proj2 (proj2 (proj2
      (mapPriceRange_priority
         ("Ukuleles " ++ pound ++ "50- " ++ pound ++ "100")))))).
    + intros [H _]. revert H. now apply Hnot.
    + intros [H|H]; revert H; now apply Hnot.
    + intros [H|H]; revert H; now apply Hnot.
    + left. exists "ukuleles ", " 100". reflexivity.
  - apply (proj1 (proj2 (proj2 (proj2 (proj2 (proj2
      (mapPriceRange_priority "Vintage instruments"))))))).
    + intros [H _]. revert H. now apply Hnot.
    + intros [H|H]; revert H; now apply Hnot.
    + intros [H|H]; revert H; now apply Hnot.
    + intros [H|H]; revert H; now apply Hnot.
    + intros [H|H]; revert H; [now apply Hnot | now apply Hnob].
  - apply (proj1 (proj2 (proj2 (proj2 (proj2 (proj2 (proj2
      (mapPriceRange_priority ("0-" ++ pound ++ "50")))))))) "0-" "50").
    reflexivity.
  - apply (proj1 (proj2 (proj2 (proj2 (proj2 (proj2 (proj2 (proj2
      (mapPriceRange_priority "500 plus")))))))) " " "  ");
      reflexivity.
Defined.

(** The claim of C8 as the specification words it fails on a text with a
    dollar sign: were currency symbols removed, "$0-50" would be cleaned
    to "0-50", which begins with "0-" and is in the lowest category; the
    dollar sign stays, no rule matches, and the category is "unknown". *)
Lemma mapPriceRange_keeps_dollar :
  mapPriceRange "0-50" = "<50" /\
  mapPriceRange (pound ++ "0-50") = "<50" /\
  mapPriceRange "$0-50" = "unknown" /\
  mapPriceRange "$0-50" <> mapPriceRange "0-50".
Proof.
  repeat split. vm_compute. discriminate.
Qed.
